(** * codebase_doctor.py: repository scan, pattern extraction, entry points,
      dependency tally and AI-section parsing

    A shallow embedding of [CodebaseAnalyzer] (src/codebase_doctor.py).
    Python [str] values are modelled by [string]; the characters are taken
    to be ASCII.  Insertion-ordered dictionaries that the program iterates
    ([file_data], [file_patterns], the results of the classifiers) are
    association lists in insertion order; counter tables ([stats], the
    per-ecosystem dependency tables) are [gmap string nat]; the result of
    [list(set(...))], whose order Python leaves open, is a [gset string]. *)

From Stdlib Require Import String Ascii List Arith Lia Bool Sorted.
From stdpp Require Import gmap strings list fin_maps.
Import ListNotations.
Open Scope string_scope.
Open Scope list_scope.

(** ** Python string helpers *)

Module PyStr.

(** [str.isspace] on ASCII: TAB, LF, VT, FF, CR, FS, GS, RS, US, space. *)
Definition is_space (a : ascii) : bool :=
  let n := nat_of_ascii a in
  (Nat.leb 9 n && Nat.leb n 13) || (Nat.leb 28 n && Nat.leb n 32).

Fixpoint lstrip (s : string) : string :=
  match s with
  | String a s' => if is_space a then lstrip s' else s
  | EmptyString => s
  end.

(** [rstrip] keeps a character when it is not a space or when something
    that is kept follows it. *)
Fixpoint rstrip (s : string) : string :=
  match s with
  | String a s' =>
      match rstrip s' with
      | EmptyString => if is_space a then EmptyString else String a EmptyString
      | t => String a t
      end
  | EmptyString => EmptyString
  end.

(** [s.strip()] *)
Definition strip (s : string) : string := rstrip (lstrip s).

(** [s.startswith(p)] *)
Fixpoint startswith (p s : string) : bool :=
  match p, s with
  | EmptyString, _ => true
  | String a p', String b s' => Ascii.eqb a b && startswith p' s'
  | String _ _, EmptyString => false
  end.

(** [s.split(sep)[0]] for a non-empty [sep]: the text before the first
    occurrence of [sep], the whole of [s] when there is none. *)
Fixpoint split_head (sep s : string) : string :=
  if startswith sep s then EmptyString
  else match s with
       | String a s' => String a (split_head sep s')
       | EmptyString => EmptyString
       end.

(** [s.split("\n")]: always at least one piece. *)
Fixpoint split_lines (s : string) : list string :=
  match s with
  | EmptyString => [EmptyString]
  | String a s' =>
      if Ascii.eqb a "010"%char then EmptyString :: split_lines s'
      else match split_lines s' with
           | l :: ls => String a l :: ls
           | [] => [String a EmptyString]
           end
  end.

(** [s[:n]] *)
Fixpoint slice_to (n : N) (s : string) : string :=
  match s with
  | EmptyString => EmptyString
  | String a s' => if N.eqb n 0 then EmptyString else String a (slice_to (N.pred n) s')
  end.

(** [s.lower()] on ASCII *)
Definition lower_char (a : ascii) : ascii :=
  let n := nat_of_ascii a in
  if Nat.leb 65 n && Nat.leb n 90 then ascii_of_nat (n + 32) else a.

Fixpoint lower (s : string) : string :=
  match s with
  | EmptyString => EmptyString
  | String a s' => String (lower_char a) (lower s')
  end.

End PyStr.

(** ** The fragment of Python's [re] the program uses

    A backtracking matcher in continuation-passing style, with the
    priorities of [re]: in an alternation the left branch first, a greedy
    repetition tries one more iteration before it stops, a lazy one stops
    before it tries one more.  Every pattern of the program has exactly one
    capturing group, so the capture state is one slot.

    A repetition goes on only while its body consumes input, as every
    repeated body of the program's patterns (one character) does; the
    counter of its loop starts above the length of the input, so it never
    reaches 0 while an iteration is still possible. *)

Module Re.

Inductive regex : Type :=
| Eps
| Chr (p : ascii -> bool)
| Seq (r1 r2 : regex)
| Alt (r1 r2 : regex)
| Star (r : regex)
| LazyStar (r : regex)
| Group (r : regex)
| Ahead (r : regex)
| Eos.

(** What a successful match leaves: the unread input and the capture. *)
Definition outcome : Type := string * option string.

(** The text consumed between [s] and its suffix [rest]. *)
Definition consumed (s rest : string) : string :=
  substring 0 (String.length s - String.length rest) s.

(** [$] without MULTILINE: at the end, or before a final newline. *)
Definition at_end (s : string) : bool :=
  match s with
  | EmptyString => true
  | String a EmptyString => Ascii.eqb a "010"%char
  | _ => false
  end.

Definition or_else {A} (x y : option A) : option A :=
  match x with Some _ => x | None => y end.

Fixpoint rmatch (r : regex) (s : string) (c : option string)
    (k : string -> option string -> option outcome) {struct r} : option outcome :=
  match r with
  | Eps => k s c
  | Chr p =>
      match s with
      | String a s' => if p a then k s' c else None
      | EmptyString => None
      end
  | Seq r1 r2 => rmatch r1 s c (fun s' c' => rmatch r2 s' c' k)
  | Alt r1 r2 => or_else (rmatch r1 s c k) (rmatch r2 s c k)
  | Star r1 =>
      (fix loop (n : nat) (s : string) (c : option string) : option outcome :=
         match n with
         | 0 => k s c
         | S n' =>
             or_else
               (rmatch r1 s c (fun s' c' =>
                  if Nat.ltb (String.length s') (String.length s) then loop n' s' c' else None))
               (k s c)
         end) (S (String.length s)) s c
  | LazyStar r1 =>
      (fix loop (n : nat) (s : string) (c : option string) : option outcome :=
         match n with
         | 0 => k s c
         | S n' =>
             or_else
               (k s c)
               (rmatch r1 s c (fun s' c' =>
                  if Nat.ltb (String.length s') (String.length s) then loop n' s' c' else None))
         end) (S (String.length s)) s c
  | Group r1 => rmatch r1 s c (fun s' _ => k s' (Some (consumed s s')))
  | Ahead r1 =>
      match rmatch r1 s c (fun s' c' => Some (s', c')) with
      | Some (_, c') => k s c'
      | None => None
      end
  | Eos => if at_end s then k s c else None
  end.

(** One attempt at the position where [s] starts.  With [must_advance]
    the attempt may not succeed on the empty text, as [re] demands right
    after an empty match. *)
Definition match_here (r : regex) (must_advance : bool) (s : string) : option outcome :=
  rmatch r s None (fun s' c =>
    if must_advance && Nat.eqb (String.length s') (String.length s) then None else Some (s', c)).

(** [re.search(r, s)]: the leftmost position with a match; the result is
    [m.group(1)], the empty string for a group that took no part. *)
Fixpoint search (r : regex) (s : string) : option string :=
  match match_here r false s with
  | Some (_, c) => Some (default EmptyString c)
  | None =>
      match s with
      | String _ s' => search r s'
      | EmptyString => None
      end
  end.

(** [re.findall(r, s)] for a pattern with one group: the captures of the
    successive non-overlapping matches.  [skip] counts the characters
    still covered by the match found last. *)
Fixpoint findall_from (r : regex) (s : string) (skip : nat) : list string :=
  let continue (n : nat) : list string :=
    match s with
    | String _ s' => findall_from r s' n
    | EmptyString => []
    end in
  match skip with
  | S n => continue n
  | 0 =>
      match match_here r false s with
      | None => continue 0
      | Some (rest, c) =>
          match String.length s - String.length rest with
          | S m => default EmptyString c :: continue m
          | 0 =>
              default EmptyString c ::
              match match_here r true s with
              | Some (rest2, c2) =>
                  default EmptyString c2 ::
                  continue (String.length s - String.length rest2 - 1)
              | None => continue 0
              end
          end
      end
  end.

Definition findall (r : regex) (s : string) : list string := findall_from r s 0.

(** *** Pattern syntax *)

(** A literal character; [ci] is [re.IGNORECASE]. *)
Definition chr (ci : bool) (a : ascii) : regex :=
  Chr (fun b =>
    if ci then Ascii.eqb (PyStr.lower_char a) (PyStr.lower_char b) else Ascii.eqb a b).

(** A run of literal characters. *)
Fixpoint lit_ (ci : bool) (s : string) : regex :=
  match s with
  | EmptyString => Eps
  | String a EmptyString => chr ci a
  | String a s' => Seq (chr ci a) (lit_ ci s')
  end.

Definition lit : string -> regex := lit_ false.

(** [r+], [r?] *)
Definition Plus (r : regex) : regex := Seq r (Star r).
Definition Opt (r : regex) : regex := Alt r Eps.

Fixpoint seqs (rs : list regex) : regex :=
  match rs with
  | [] => Eps
  | [r] => r
  | r :: rs' => Seq r (seqs rs')
  end.

Fixpoint alts (rs : list regex) : regex :=
  match rs with
  | [] => Eps
  | [r] => r
  | r :: rs' => Alt r (alts rs')
  end.

(** Character classes. *)
Definition in_range (lo hi : nat) (a : ascii) : bool :=
  let n := nat_of_ascii a in Nat.leb lo n && Nat.leb n hi.
Definition is_upper (a : ascii) : bool := in_range 65 90 a.
Definition is_alnum (a : ascii) : bool :=
  in_range 65 90 a || in_range 97 122 a || in_range 48 57 a.
Definition is_char (x : ascii) (a : ascii) : bool := Ascii.eqb x a.

(** [\s] *)
Definition ws : regex := Chr PyStr.is_space.
(** [[A-Za-z0-9_]] *)
Definition word : regex := Chr (fun a => is_alnum a || is_char "_" a).
(** [[A-Za-z0-9_.]] *)
Definition dotted : regex :=
  Chr (fun a => is_alnum a || is_char "_" a || is_char "." a).
(** [[A-Za-z0-9_$]] *)
Definition jsword : regex :=
  Chr (fun a => is_alnum a || is_char "_" a || is_char "$" a).
(** [.] without DOTALL, and with it *)
Definition dot : regex := Chr (fun a => negb (is_char "010" a)).
Definition any : regex := Chr (fun _ => true).
(** [[^x]] *)
Definition not_chr (x : ascii) : regex := Chr (fun a => negb (is_char x a)).

End Re.

(** ** Insertion-ordered dictionaries

    A Python [dict] keeps its keys in the order of their first insertion;
    assigning to a key that is present replaces the value in place. *)

Module Dict.

Section Ops.
Context {V : Type}.

Fixpoint get (k : string) (d : list (string * V)) : option V :=
  match d with
  | [] => None
  | (k', v) :: d' => if String.eqb k k' then Some v else get k d'
  end.

(** [d[k] = v] *)
Fixpoint set (k : string) (v : V) (d : list (string * V)) : list (string * V) :=
  match d with
  | [] => [(k, v)]
  | (k', v') :: d' => if String.eqb k k' then (k, v) :: d' else (k', v') :: set k v d'
  end.

Definition keys (d : list (string * V)) : list string := map fst d.

Definition mem (k : string) (d : list (string * V)) : bool :=
  match get k d with Some _ => true | None => false end.

End Ops.

End Dict.

(** ** The repository on disk

    What the scan observes of a file: its name, its size in bytes, and how
    decoding it as UTF-8 goes.  On [BadEarly] the probe [f.read(1024)] of
    [_is_binary_file] raises [UnicodeDecodeError]; on [BadLate] the probe
    succeeds and the read of the whole file raises it (an invalid byte
    beyond the first buffered chunk).  Every file of the tree can be
    opened: [open] and [os.path.getsize] raise nothing else. *)

Inductive decoding : Type :=
| Utf8 (text : string)
| BadEarly
| BadLate.

Record file : Type := mkFile {
  fname : string;
  fsize : N;
  fdecoding : decoding
}.

(** A directory: its files and its sub-directories, both in the order in
    which [os.walk] lists them. *)
#[warnings="-register-all"]
Inductive tree : Type :=
| Dir (files : list file) (subdirs : list (string * tree)).

(** ** The analyzer's state *)

Record FileRecord : Type := mkFileRecord {
  fr_path : string;
  fr_type : string;
  fr_size : N
}.

Record SampledFile : Type := mkSampled {
  sf_path : string;
  sf_content : string
}.

Record analyzer : Type := mkAnalyzer {
  max_files_per_type : nat;
  excluded_dirs : list string;
  file_data : list (string * FileRecord);
  file_patterns : list (string * list SampledFile);
  stats : gmap string nat
}.

(** [CodebaseAnalyzer.__init__] *)
Definition init : analyzer :=
  {| max_files_per_type := 25;
     excluded_dirs := [".git"; "node_modules"; "__pycache__"; "venv"; "dist"; "build"];
     file_data := [];
     file_patterns := [];
     stats := ∅ |}.

(** [stats[k]] read without inserting, and [stats[k] += 1] on a
    [defaultdict(int)]. *)
Definition stat (k : string) (m : gmap string nat) : nat := default 0 (m !! k).

Definition incr (k : string) (m : gmap string nat) : gmap string nat :=
  <[k := S (stat k m)]> m.

(** [file_patterns[ext]] on a [defaultdict(list)]: the read itself inserts
    an empty list under a missing key. *)
Definition samples (ext : string) (fp : list (string * list SampledFile)) : list SampledFile :=
  default [] (Dict.get ext fp).

Definition touch (ext : string) (fp : list (string * list SampledFile))
  : list (string * list SampledFile) :=
  if Dict.mem ext fp then fp else Dict.set ext [] fp.

(** ** The scan *)

(** [_is_binary_file] *)
Definition _is_binary_file (f : file) : bool :=
  match fdecoding f with
  | BadEarly => true
  | _ => false
  end.

(** The suffix of [s] that starts at its last dot. *)
Fixpoint last_dot_suffix (s : string) : option string :=
  match s with
  | EmptyString => None
  | String a s' =>
      match last_dot_suffix s' with
      | Some e => Some e
      | None => if Ascii.eqb a "." then Some s else None
      end
  end.

Fixpoint skip_dots (s : string) : string :=
  match s with
  | String a s' => if Ascii.eqb a "." then skip_dots s' else s
  | EmptyString => s
  end.

(** [os.path.splitext(name)[1]]: leading dots of the name start no
    extension. *)
Definition splitext_ext (name : string) : string :=
  default EmptyString (last_dot_suffix (skip_dots name)).

(** [ext.lower()[1:] if ext else "no_extension"] *)
Definition file_type (name : string) : string :=
  match splitext_ext name with
  | EmptyString => "no_extension"
  | String _ e => PyStr.lower e
  end.

(** The body of the inner loop of [scan_repo] for one file, [rel_path]
    being its path relative to the repository. *)
Definition scan_file (a : analyzer) (e : string * file) : analyzer :=
  let '(rel_path, f) := e in
  if _is_binary_file f || N.ltb 1000000 (fsize f) then a
  else
    let ext := file_type (fname f) in
    let stats' := incr ("files_by_type_" +:+ ext) (incr "total_files" (stats a)) in
    let file_data' :=
      Dict.set rel_path
        {| fr_path := rel_path; fr_type := ext; fr_size := fsize f |} (file_data a) in
    let touched := touch ext (file_patterns a) in
    let file_patterns' :=
      if Nat.ltb (length (samples ext touched)) (max_files_per_type a) then
        match fdecoding f with
        | Utf8 content =>
            Dict.set ext
              (samples ext touched ++
               [{| sf_path := rel_path; sf_content := PyStr.slice_to 100000 content |}])
              touched
        | _ => touched
        end
      else touched in
    {| max_files_per_type := max_files_per_type a;
       excluded_dirs := excluded_dirs a;
       file_data := file_data';
       file_patterns := file_patterns';
       stats := stats' |}.

(** The files [os.walk] visits, with their relative paths: the files of a
    directory first, then its sub-directories in turn, those named in
    [excluded] pruned before the descent. *)
Fixpoint walk (excluded : list string) (prefix : string) (t : tree)
  : list (string * file) :=
  match t with
  | Dir files subdirs =>
      map (fun f => (prefix +:+ fname f, f)) files ++
      (fix descend (l : list (string * tree)) : list (string * file) :=
         match l with
         | [] => []
         | (d, t') :: l' =>
             (if existsb (String.eqb d) excluded then []
              else walk excluded (prefix +:+ d +:+ "/") t') ++ descend l'
         end) subdirs
  end.

Definition scan_files (a : analyzer) (es : list (string * file)) : analyzer :=
  fold_left scan_file es a.

(** [scan_repo] *)
Definition scan_repo (a : analyzer) (repo : tree) : analyzer :=
  scan_files a (walk (excluded_dirs a) EmptyString repo).

(** ** Pattern extractors *)

Import Re.

(** [list(set(...))] of the matches of every pattern in every file. *)
Definition extract (patterns : list regex) (files : list SampledFile) : gset string :=
  list_to_set
    (flat_map (fun file => flat_map (fun p => findall p (sf_content file)) patterns) files).

(** [import\s+([A-Za-z0-9_.]+)] and [from\s+([A-Za-z0-9_.]+)\s+import] *)
Definition python_import_patterns : list regex :=
  [ seqs [lit "import"; Plus ws; Group (Plus dotted)];
    seqs [lit "from"; Plus ws; Group (Plus dotted); Plus ws; lit "import"] ].

Definition _extract_python_imports : list SampledFile -> gset string :=
  extract python_import_patterns.

(** [class\s+([A-Za-z0-9_]+)(?:\([^)]*\))?:] *)
Definition python_class_pattern : regex :=
  seqs [lit "class"; Plus ws; Group (Plus word);
        Opt (seqs [lit "("; Star (not_chr ")"); lit ")"]); lit ":"].

Definition _extract_python_classes : list SampledFile -> gset string :=
  extract [python_class_pattern].

(** [def\s+([A-Za-z0-9_]+)\s*\(] *)
Definition python_function_pattern : regex :=
  seqs [lit "def"; Plus ws; Group (Plus word); Star ws; lit "("].

Definition _extract_python_functions : list SampledFile -> gset string :=
  extract [python_function_pattern].

(** The double quote character.  In the patterns quoted in the comments
    below DQ stands for it, and a space separates a star from a closing
    parenthesis that follows it. *)
Definition dq : ascii := "034"%char.

(** [(?:import|require)\s*\(?['DQ]([^'DQ]* )['DQ]\)?] *)
Definition quote : regex := Chr (fun a => is_char "'" a || is_char dq a).
Definition not_quote : regex := Chr (fun a => negb (is_char "'" a || is_char dq a)).

Definition js_import_pattern : regex :=
  seqs [Alt (lit "import") (lit "require"); Star ws; Opt (lit "(");
        quote; Group (Star not_quote); quote; Opt (lit ")")].

Definition _extract_js_imports : list SampledFile -> gset string :=
  extract [js_import_pattern].

(** [export\s+(?:default\s+)?(?:class|function|const|let|var)\s+([A-Za-z0-9_$]+)]
    and [export\s+default\s+([A-Za-z0-9_$]+)] *)
Definition js_export_patterns : list regex :=
  [ seqs [lit "export"; Plus ws; Opt (Seq (lit "default") (Plus ws));
          alts [lit "class"; lit "function"; lit "const"; lit "let"; lit "var"];
          Plus ws; Group (Plus jsword)];
    seqs [lit "export"; Plus ws; lit "default"; Plus ws; Group (Plus jsword)] ].

Definition _extract_js_exports : list SampledFile -> gset string :=
  extract js_export_patterns.

(** [([A-Z][A-Za-z0-9_$]* )] *)
Definition capitalized : regex := Group (Seq (Chr is_upper) (Star jsword)).

(** The three shapes of [_extract_react_components]:
    [(?:export\s+)?(?:default\s+)?class\s+([A-Z][A-Za-z0-9_$]* )\s+extends\s+(?:React\.)?Component],
    [(?:export\s+)?(?:const|let|var)\s+([A-Z][A-Za-z0-9_$]* )\s*=\s*(?:\([^)]*\)|[^=]* )\s*=>\s*{],
    [function\s+([A-Z][A-Za-z0-9_$]* )\s*\(] *)
Definition component_patterns : list regex :=
  [ seqs [Opt (Seq (lit "export") (Plus ws)); Opt (Seq (lit "default") (Plus ws));
          lit "class"; Plus ws; capitalized; Plus ws; lit "extends"; Plus ws;
          Opt (lit "React."); lit "Component"];
    seqs [Opt (Seq (lit "export") (Plus ws));
          alts [lit "const"; lit "let"; lit "var"]; Plus ws; capitalized;
          Star ws; lit "="; Star ws;
          Alt (seqs [lit "("; Star (not_chr ")"); lit ")"]) (Star (not_chr "="));
          Star ws; lit "=>"; Star ws; lit "{"];
    seqs [lit "function"; Plus ws; capitalized; Star ws; lit "("] ].

Definition _extract_react_components : list SampledFile -> gset string :=
  extract component_patterns.

(** [import\s+([A-Za-z0-9_.]+);] *)
Definition java_import_pattern : regex :=
  seqs [lit "import"; Plus ws; Group (Plus dotted); lit ";"].

Definition _extract_java_imports : list SampledFile -> gset string :=
  extract [java_import_pattern].

(** [(?:public|private|protected)?\s+class\s+([A-Za-z0-9_]+)] *)
Definition java_class_pattern : regex :=
  seqs [Opt (alts [lit "public"; lit "private"; lit "protected"]);
        Plus ws; lit "class"; Plus ws; Group (Plus word)].

Definition _extract_java_classes : list SampledFile -> gset string :=
  extract [java_class_pattern].

(** [import\s+\(\s*(.*?)\s*\)] under DOTALL, [import\s+DQ([^DQ]+)DQ] and
    the quoted string of one line, [DQ([^DQ]+)DQ]. *)
Definition go_block_pattern : regex :=
  seqs [lit "import"; Plus ws; lit "("; Star ws; Group (LazyStar any); Star ws; lit ")"].

Definition go_quoted : regex :=
  seqs [Chr (is_char dq); Group (Plus (not_chr dq)); Chr (is_char dq)].

Definition go_single_pattern : regex :=
  seqs [lit "import"; Plus ws; go_quoted].

Definition option_list {A} (o : option A) : list A :=
  match o with Some x => [x] | None => [] end.

Definition go_file_imports (content : string) : list string :=
  flat_map
    (fun imp_block =>
       flat_map (fun line => option_list (search go_quoted line))
                (PyStr.split_lines imp_block))
    (findall go_block_pattern content)
  ++ findall go_single_pattern content.

Definition _extract_go_imports (files : list SampledFile) : gset string :=
  list_to_set (flat_map (fun file => go_file_imports (sf_content file)) files).

(** [func\s+(?:\([^)]+\)\s+)?([A-Za-z0-9_]+)\s*\(] *)
Definition go_function_pattern : regex :=
  seqs [lit "func"; Plus ws;
        Opt (seqs [lit "("; Plus (not_chr ")"); lit ")"; Plus ws]);
        Group (Plus word); Star ws; lit "("].

Definition _extract_go_functions : list SampledFile -> gset string :=
  extract [go_function_pattern].

Definition is_js_family (ext : string) : bool :=
  existsb (String.eqb ext) ["js"; "jsx"; "ts"; "tsx"].

(** [_extract_patterns]: the PatternSet of one extension. *)
Definition _extract_patterns (ext : string) (files : list SampledFile)
  : list (string * gset string) :=
  if is_js_family ext then
    [("imports", _extract_js_imports files);
     ("exports", _extract_js_exports files);
     ("components", _extract_react_components files)]
  else if String.eqb ext "py" then
    [("imports", _extract_python_imports files);
     ("classes", _extract_python_classes files);
     ("functions", _extract_python_functions files)]
  else if existsb (String.eqb ext) ["java"; "kt"] then
    [("imports", _extract_java_imports files);
     ("classes", _extract_java_classes files)]
  else if String.eqb ext "go" then
    [("imports", _extract_go_imports files);
     ("functions", _extract_go_functions files)]
  else [].

(** [patterns_by_type] of [analyze_architecture]: one PatternSet for each
    extension with a non-empty sample. *)
Definition patterns_by_type (a : analyzer) : list (string * list (string * gset string)) :=
  flat_map
    (fun '(ext, files) =>
       match files with
       | [] => []
       | _ :: _ => [(ext, _extract_patterns ext files)]
       end)
    (file_patterns a).

(** ** Entry-point classifier *)

(** A pattern of the form [(alt1|alt2|...)$]; literals are matched under
    [re.IGNORECASE]. *)
Definition ilit : string -> regex := lit_ true.
Definition ends_with (alternatives : list regex) : regex :=
  Seq (Group (alts alternatives)) Eos.
(** [.+] *)
Definition dot_plus : regex := Plus dot.
(** [x?] for a literal character *)
Definition iopt (s : string) : regex := Opt (ilit s).

Definition backend_patterns : list regex :=
  [ ends_with [ilit "app.py"; ilit "server.py"; ilit "main.py"; ilit "index.py";
               ilit "application.py"];
    ends_with [ilit "app.js"; ilit "server.js"; ilit "index.js"; ilit "main.js"];
    ends_with [ilit "app.ts"; ilit "server.ts"; ilit "index.ts"; ilit "main.ts"];
    ends_with [ilit "Program.cs"; ilit "Startup.cs"] ].

Definition frontend_patterns : list regex :=
  [ ends_with [ilit "index.html"];
    ends_with [Seq (ilit "index.js") (iopt "x"); Seq (ilit "App.js") (iopt "x");
               Seq (ilit "main.js") (iopt "x")];
    ends_with [Seq (ilit "index.ts") (iopt "x"); Seq (ilit "App.ts") (iopt "x");
               Seq (ilit "main.ts") (iopt "x")] ].

Definition cli_patterns : list regex :=
  [ ends_with [ilit "cli.py"; ilit "__main__.py"; Seq (ilit "bin/") dot_plus];
    ends_with [ilit "cli.js"; seqs [ilit "bin/"; dot_plus; ilit ".js"]] ].

Definition config_patterns : list regex :=
  [ ends_with [Seq (ilit "config.") dot_plus; seqs [dot_plus; ilit ".config."; dot_plus]];
    ends_with [ilit "package.json"; ilit "tsconfig.json"; ilit "poetry.toml";
               ilit "pyproject.toml"];
    ends_with [ilit "Dockerfile"; ilit "docker-compose.yml"];
    ends_with [Seq dot_plus (ilit ".yaml"); Seq dot_plus (ilit ".yml")] ].

(** [for pattern in patterns: if re.search(...): ...; break]: whether the
    loop reaches its [append]. *)
Fixpoint first_match (patterns : list regex) (file_path : string) : bool :=
  match patterns with
  | [] => false
  | p :: ps =>
      match search p file_path with
      | Some _ => true
      | None => first_match ps file_path
      end
  end.

(** [entry_points[category].append(file_path)] behind its pattern loop. *)
Definition check_category (category : string) (patterns : list regex)
    (file_path : string) (entry_points : list (string * list string))
  : list (string * list string) :=
  if first_match patterns file_path then
    Dict.set category (default [] (Dict.get category entry_points) ++ [file_path])
             entry_points
  else entry_points.

(** The body of the loop over [file_data.keys()]. *)
Definition classify_path (entry_points : list (string * list string)) (file_path : string)
  : list (string * list string) :=
  check_category "config" config_patterns file_path
    (check_category "cli" cli_patterns file_path
       (check_category "frontend" frontend_patterns file_path
          (check_category "backend" backend_patterns file_path entry_points))).

Definition is_empty_list {A} (l : list A) : bool :=
  match l with [] => true | _ :: _ => false end.

(** [{k: v for k, v in d.items() if v}] for list values *)
Definition drop_empty {A} (d : list (string * list A)) : list (string * list A) :=
  List.filter (fun kv => negb (is_empty_list (snd kv))) d.

(** [_identify_entry_points] *)
Definition _identify_entry_points (a : analyzer) : list (string * list string) :=
  drop_empty
    (fold_left classify_path (Dict.keys (file_data a))
       [("backend", []); ("frontend", []); ("cli", []); ("config", [])]).

(** ** Dependency aggregator *)

(** What opening and reading a file at the repository root gives:
    [os.path.exists] is false, the read raises, or the text. *)
Inductive read_outcome : Type :=
| Absent
| Raises
| Content (text : string).

(** What [json.load] makes of package.json, as far as the program looks:
    the file is absent, the [try] block raises, or the items that
    [deps.update] receives from the two sections, [None] for a section
    that is not there. *)
Inductive package_json : Type :=
| NoPackageJson
| BadPackageJson
| PackageData (dependencies devDependencies : option (list (string * string))).

(** [deps = {}; deps.update(...); deps.update(...)], then one entry at
    count 1 for each key of [deps]. *)
Definition seed_javascript (pj : package_json) (table : gmap string nat) : gmap string nat :=
  match pj with
  | PackageData dependencies devDependencies =>
      let deps :=
        fold_left (fun d kv => Dict.set (fst kv) (snd kv) d)
          (default [] dependencies ++ default [] devDependencies) [] in
      fold_left (fun t dep => <[dep := 1]> t) (Dict.keys deps) table
  | _ => table
  end.

Definition python_req_files : list string :=
  ["requirements.txt"; "Pipfile"; "pyproject.toml"; "setup.py"].

(** The loop over the lines of requirements.txt. *)
Definition requirements_line (table : gmap string nat) (line : string) : gmap string nat :=
  if negb (String.eqb (PyStr.strip line) EmptyString) && negb (PyStr.startswith "#" line)
  then
    let pkg := PyStr.strip (PyStr.split_head ">=" (PyStr.split_head "==" line)) in
    incr pkg table
  else table.

(** One candidate requirement file. *)
Definition seed_python_file (root : string -> read_outcome) (table : gmap string nat)
    (req_file : string) : gmap string nat :=
  match root req_file with
  | Content content =>
      if String.eqb req_file "requirements.txt"
      then fold_left requirements_line (PyStr.split_lines content) table
      else table
  | _ => table
  end.

Record dependencies : Type := mkDeps {
  javascript : gmap string nat;
  python : gmap string nat;
  java : gmap string nat;
  go : gmap string nat
}.

(** The tally of one sampled JS/TS file. *)
Definition tally_js (table : gmap string nat) (file : SampledFile) : gmap string nat :=
  set_fold
    (fun imp t =>
       if negb (PyStr.startswith "." imp) && negb (PyStr.startswith "/" imp)
       then incr (PyStr.split_head "/" imp) t
       else t)
    table (_extract_js_imports [file]).

(** The tally of one sampled Python file. *)
Definition tally_py (table : gmap string nat) (file : SampledFile) : gmap string nat :=
  set_fold (fun imp t => incr (PyStr.split_head "." imp) t)
    table (_extract_python_imports [file]).

(** The body of the loop over [file_patterns.items()]. *)
Definition tally_ext (d : dependencies) (entry : string * list SampledFile) : dependencies :=
  let '(ext, files) := entry in
  if is_js_family ext then
    {| javascript := fold_left tally_js files (javascript d);
       python := python d; java := java d; go := go d |}
  else if String.eqb ext "py" then
    {| javascript := javascript d;
       python := fold_left tally_py files (python d);
       java := java d; go := go d |}
  else d.

(** [{k: v for k, v in dependencies.items() if v}] *)
Definition drop_empty_tables (d : dependencies) : list (string * gmap string nat) :=
  List.filter (fun kv => negb (bool_decide (snd kv = ∅)))
    [("javascript", javascript d); ("python", python d); ("java", java d); ("go", go d)].

(** [_identify_dependencies]: [root] reads a file of the repository root,
    [pj] is what package.json parses to. *)
Definition _identify_dependencies (root : string -> read_outcome) (pj : package_json)
    (a : analyzer) : list (string * gmap string nat) :=
  let seeded :=
    {| javascript := seed_javascript pj ∅;
       python := fold_left (seed_python_file root) python_req_files ∅;
       java := ∅; go := ∅ |} in
  drop_empty_tables (fold_left tally_ext (file_patterns a) seeded).




(** ** The AI call and the parser of its reply *)

(** What the [try] block of [ai_analysis] gets from the service: the text
    of the reply, or an exception raised by the request, by
    [raise_for_status], by the JSON decoding or by the indexing of the
    result. *)
Inductive ai_reply : Type :=
| Reply (text : string)
| Raised (message : string).

(** [# Name(.*?)(?=# Other1|# Other2|# Other3|# Other4|$)] under DOTALL *)
Definition section_pattern (name : string) (others : list string) : regex :=
  seqs [lit name; Group (LazyStar any); Ahead (alts (map lit others ++ [Eos]))].

Definition overview_pattern : regex :=
  section_pattern "# Overview"
    ["# Patterns"; "# Examples"; "# Best Practices"; "# Recommendations"].
Definition patterns_pattern : regex :=
  section_pattern "# Patterns"
    ["# Overview"; "# Examples"; "# Best Practices"; "# Recommendations"].
Definition examples_pattern : regex :=
  section_pattern "# Examples"
    ["# Overview"; "# Patterns"; "# Best Practices"; "# Recommendations"].
Definition best_practices_pattern : regex :=
  section_pattern "# Best Practices"
    ["# Overview"; "# Patterns"; "# Examples"; "# Recommendations"].
Definition recommendations_pattern : regex :=
  section_pattern "# Recommendations"
    ["# Overview"; "# Patterns"; "# Examples"; "# Best Practices"].

(** [if m: sections[key] = m.group(1).strip()] *)
Definition add_section (key : string) (m : option string) (sections : list (string * string))
  : list (string * string) :=
  match m with
  | Some body => Dict.set key (PyStr.strip body) sections
  | None => sections
  end.

(** [_parse_ai_analysis] *)
Definition _parse_ai_analysis (ai_analysis : string) : list (string * string) :=
  let overview_match := search overview_pattern ai_analysis in
  let patterns_match := search patterns_pattern ai_analysis in
  let examples_match := search examples_pattern ai_analysis in
  let best_practices_match := search best_practices_pattern ai_analysis in
  let recommendations_match := search recommendations_pattern ai_analysis in
  add_section "recommendations" recommendations_match
    (add_section "best_practices" best_practices_match
       (add_section "examples" examples_match
          (add_section "patterns" patterns_match
             (add_section "overview" overview_match [])))).

(** [ai_analysis], from the reply of the service on. *)
Definition ai_analysis (reply : ai_reply) : list (string * string) :=
  match reply with
  | Reply text => _parse_ai_analysis text
  | Raised _ =>
      [("overview", "Error during AI analysis");
       ("patterns", "Error during AI analysis");
       ("recommendations", "Error during AI analysis");
       ("examples", "Error during AI analysis")]
  end.

(** The five keys of AIAnalysisSections. *)
Definition section_keys : list string :=
  ["overview"; "patterns"; "examples"; "best_practices"; "recommendations"].


(** ** Prompt assembly: the dependency slice *)

(** [sorted(deps.items(), key=lambda x: x[1], reverse=True)]: a stable
    sort by descending count.  An item goes before the first item whose
    count does not exceed its own, so items of equal count keep their
    order. *)
Fixpoint insert_by_count (x : string * nat) (l : list (string * nat))
  : list (string * nat) :=
  match l with
  | [] => [x]
  | y :: l' =>
      if Nat.leb (snd y) (snd x) then x :: y :: l' else y :: insert_by_count x l'
  end.

Definition sorted_by_count (items : list (string * nat)) : list (string * nat) :=
  fold_right insert_by_count [] items.

(** [sorted_deps[:15]], the dependencies of one ecosystem that
    [_generate_ai_prompt] lists; the items of the table come in the order
    of [map_to_list]. *)
Definition shown_dependencies (table : gmap string nat) : list (string * nat) :=
  firstn 15 (sorted_by_count (map_to_list table)).

(** ** Notions used in the statements *)

(** A file the scan takes: neither binary nor above the size ceiling. *)
Definition accepted (f : file) : bool :=
  negb (_is_binary_file f || N.ltb 1000000 (fsize f)).

(** What one file of type [ext] adds to the sample of [ext] while there is
    room: its path and its text, cut at 100000 characters, when it is
    accepted and decodes. *)
Definition sampleable (ext : string) (e : string * file) : option SampledFile :=
  if accepted (snd e) && String.eqb (file_type (fname (snd e))) ext then
    match fdecoding (snd e) with
    | Utf8 content =>
        Some {| sf_path := fst e; sf_content := PyStr.slice_to 100000 content |}
    | _ => None
    end
  else None.

(** The texts that can be sampled for [ext], in walk order. *)
Definition readable (ext : string) (es : list (string * file)) : list SampledFile :=
  flat_map (fun e => option_list (sampleable ext e)) es.

(** The paths of the accepted files of an extension, in walk order. *)
Definition accepted_paths (ext : string) (es : list (string * file)) : list string :=
  map fst
    (List.filter
       (fun e => accepted (snd e) && String.eqb (file_type (fname (snd e))) ext) es).

(** By how much one file of the walk raises the counter [k]. *)
Definition hits (k : string) (e : string * file) : nat :=
  if accepted (snd e) then
    (if String.eqb k "total_files" then 1 else 0) +
    (if String.eqb k ("files_by_type_" +:+ file_type (fname (snd e))) then 1 else 0)
  else 0.

(** The four categories with their pattern groups. *)
Definition categories : list (string * list regex) :=
  [("backend", backend_patterns); ("frontend", frontend_patterns);
   ("cli", cli_patterns); ("config", config_patterns)].

(** The sampled files of the JS/TS family, in the order of the tally. *)
Definition js_files (fp : list (string * list SampledFile)) : list SampledFile :=
  flat_map (fun entry => if is_js_family (fst entry) then snd entry else []) fp.

(** ** Scenarios *)

Definition nl : string := String "010"%char EmptyString.

(** The two-file Python repository. *)
Definition a_py : string :=
  "import os" +:+ nl +:+ "class Foo:" +:+ nl +:+ "    def bar(self): pass".

Definition b_py : string := "from collections import defaultdict".

Definition python_repo : tree :=
  Dir [mkFile "a.py" 44 (Utf8 a_py); mkFile "b.py" 35 (Utf8 b_py)] [].

Definition python_sample : list SampledFile :=
  samples "py" (file_patterns (scan_repo init python_repo)).

(** A second fresh analyzer, with another cap. *)
Definition other_fresh : analyzer :=
  {| max_files_per_type := 5;
     excluded_dirs := excluded_dirs init;
     file_data := [];
     file_patterns := [];
     stats := ∅ |}.

(** A repository whose first Python file passes the probe and fails to
    decode further on. *)
Definition late_failure_repo : tree :=
  Dir [mkFile "x.py" 20000 BadLate; mkFile "y.py" 9 (Utf8 "import os")] [].

(** A repository with one file above the ceiling. *)
Definition big_file : file := mkFile "big.py" 1000001 (Utf8 "import os").

Definition small_file : file := mkFile "a.py" 9 (Utf8 "import os").

Definition big_file_repo : tree := Dir [big_file; small_file] [].

(** The React repository: package.json declares [react], one source file
    holds the line [import DQreact-domDQ]. *)
Definition quoted (s : string) : string := String dq s +:+ String dq EmptyString.

Definition package_json_text : string :=
  "{" +:+ quoted "dependencies" +:+ ":{" +:+ quoted "react" +:+ ":"
      +:+ quoted "^18.0.0" +:+ "}}".

Definition react_package_json : package_json :=
  PackageData (Some [("react", "^18.0.0")]) None.

Definition import_react_dom : string := "import " +:+ quoted "react-dom".

Definition react_repo : tree :=
  Dir [mkFile "package.json" 36 (Utf8 package_json_text);
       mkFile "app.js" 18 (Utf8 import_react_dom)] [].

(** A root with all four candidate files. *)
Definition full_root (name : string) : read_outcome :=
  if String.eqb name "requirements.txt" then Content ("requests==2.31" +:+ nl +:+ "# pinned")
  else if String.eqb name "Pipfile" then Content "flask = 1"
  else if String.eqb name "pyproject.toml" then Content "dependencies = [numpy]"
  else if String.eqb name "setup.py" then Raises
  else Absent.



(** ** Further notions used in the statements *)

(** The tree without the directories named in [excluded], at every
    depth. *)
Fixpoint prune (excluded : list string) (t : tree) : tree :=
  match t with
  | Dir files subdirs =>
      Dir files
        ((fix keep (l : list (string * tree)) : list (string * tree) :=
            match l with
            | [] => []
            | (d, t') :: l' =>
                if existsb (String.eqb d) excluded then keep l'
                else (d, prune excluded t') :: keep l'
            end) subdirs)
  end.

(** Whether a string holds a dot, and whether it holds an upper-case
    ASCII letter. *)
Fixpoint has_dot (s : string) : bool :=
  match s with
  | EmptyString => false
  | String a s' => Ascii.eqb a "." || has_dot s'
  end.

Fixpoint has_upper (s : string) : bool :=
  match s with
  | EmptyString => false
  | String a s' => Re.is_upper a || has_upper s'
  end.

(** The per-extension counters added up, as the report and the prompt
    pick them out of [stats]: the values under the keys that start with
    [files_by_type_]. *)
Definition by_type_total (m : gmap string nat) : nat :=
  map_fold
    (fun k v acc => if PyStr.startswith "files_by_type_" k then v + acc else acc) 0 m.

(** A repository with one binary file. *)
Definition binary_file : file := mkFile "logo.png" 512 BadEarly.

Definition binary_file_repo : tree := Dir [binary_file; small_file] [].

(** A counter table whose counts are all at least 1. *)
Definition positive (m : gmap string nat) : Prop :=
  ∀ k n, m !! k = Some n → (1 <= n)%nat.

(** Whether every character of a string passes a test. *)
Fixpoint all_chars (P : ascii → bool) (s : string) : bool :=
  match s with
  | EmptyString => true
  | String a s' => P a && all_chars P s'
  end.

Definition is_not (x : ascii) (a : ascii) : bool := negb (Ascii.eqb a x).

(** A requirement name the parser of requirements.txt keeps whole: not
    empty, without white space, [=] or [>], and not starting a comment. *)
Definition is_plain_name (name : string) : bool :=
  negb (String.eqb name EmptyString) &&
  all_chars (fun a => negb (PyStr.is_space a) && is_not "=" a && is_not ">" a) name &&
  negb (PyStr.startswith "#" name).

(** The import specifiers of a set that count for [pkg] in the JavaScript
    tally, and those that count for it in the Python tally. *)
Definition counts_for_js (pkg : string) (imp : string) : bool :=
  negb (PyStr.startswith "." imp) && negb (PyStr.startswith "/" imp) &&
  String.eqb (PyStr.split_head "/" imp) pkg.

Definition counts_for_py (pkg : string) (imp : string) : bool :=
  String.eqb (PyStr.split_head "." imp) pkg.

(** Whether [name] occurs in [s], that is, starts one of its suffixes. *)
Fixpoint occurs (name s : string) : bool :=
  PyStr.startswith name s ||
  match s with
  | String _ s' => occurs name s'
  | EmptyString => false
  end.

(** What is left of [s] after a prefix as long as [p]. *)
Fixpoint after_prefix (p s : string) : string :=
  match p, s with
  | String _ p', String _ s' => after_prefix p' s'
  | _, _ => s
  end.

(** The section keys with the headers that open them. *)
Definition section_headers : list (string * string) :=
  [("overview", "# Overview"); ("patterns", "# Patterns"); ("examples", "# Examples");
   ("best_practices", "# Best Practices"); ("recommendations", "# Recommendations")].

(** The loops of [rmatch] for a greedy and for a lazy repetition, by
    name. *)
Definition star_loop (r1 : regex) (k : string → option string → option outcome)
  : nat → string → option string → option outcome :=
  fix loop (n : nat) (s : string) (c : option string) : option outcome :=
    match n with
    | 0 => k s c
    | S n' =>
        or_else
          (rmatch r1 s c (fun s' c' =>
             if Nat.ltb (String.length s') (String.length s) then loop n' s' c' else None))
          (k s c)
    end.

Definition lazy_loop (r1 : regex) (k : string → option string → option outcome)
  : nat → string → option string → option outcome :=
  fix loop (n : nat) (s : string) (c : option string) : option outcome :=
    match n with
    | 0 => k s c
    | S n' =>
        or_else
          (k s c)
          (rmatch r1 s c (fun s' c' =>
             if Nat.ltb (String.length s') (String.length s) then loop n' s' c' else None))
    end.

(** Patterns without a capturing group. *)
Fixpoint groupless (r : regex) : bool :=
  match r with
  | Eps | Chr _ | Eos => true
  | Seq r1 r2 | Alt r1 r2 => groupless r1 && groupless r2
  | Star r1 | LazyStar r1 | Ahead r1 => groupless r1
  | Group _ => false
  end.

(** Patterns that read characters passing [P] only, and those among them
    that read at least one character. *)
Fixpoint eats (P : ascii → bool) (r : regex) : Prop :=
  match r with
  | Eps => True
  | Chr p => ∀ a, p a = true → P a = true
  | Seq r1 r2 | Alt r1 r2 => eats P r1 ∧ eats P r2
  | Star r1 | LazyStar r1 => eats P r1
  | Group _ | Ahead _ | Eos => False
  end.

Fixpoint consumes (r : regex) : bool :=
  match r with
  | Chr _ => true
  | Seq r1 r2 => consumes r1 || consumes r2
  | Alt r1 r2 => consumes r1 && consumes r2
  | _ => false
  end.

(** A group whose matches always capture a text with the property [Q]. *)
Definition group_yields (Q : string → Prop) (g : regex) : Prop :=
  ∀ s c k o,
    rmatch (Group g) s c k = Some o → ∃ w s', Q w ∧ k s' (Some w) = Some o.

(** A sequence with one capturing group, whose captures have the property
    [Q], between parts without groups. *)
Fixpoint captures (Q : string → Prop) (r : regex) : Prop :=
  match r with
  | Group g => group_yields Q g
  | Seq r1 r2 =>
      (groupless r1 = true ∧ captures Q r2) ∨ (captures Q r1 ∧ groupless r2 = true)
  | _ => False
  end.

(** The character classes of the extractors. *)
Definition word_char (a : ascii) : bool := is_alnum a || is_char "_" a.
Definition dotted_char (a : ascii) : bool := is_alnum a || is_char "_" a || is_char "." a.
Definition js_char (a : ascii) : bool := is_alnum a || is_char "_" a || is_char "$" a.
Definition unquoted_char (a : ascii) : bool := negb (is_char "'" a || is_char dq a).

(** A non-empty text of characters passing [P]. *)
Definition name_of (P : ascii → bool) (w : string) : Prop :=
  w ≠ EmptyString ∧ all_chars P w = true.

(** A text of JS identifier characters that starts with an upper-case
    letter. *)
Definition capitalized_name (w : string) : Prop :=
  ∃ a w', w = String a w' ∧ is_upper a = true ∧ all_chars js_char w' = true.

Definition undq_char (a : ascii) : bool := negb (is_char dq a).

(** Patterns whose character tests do not tell a letter from its
    lower-case form. *)
Fixpoint caseless (r : regex) : Prop :=
  match r with
  | Eps | Eos => True
  | Chr p => ∀ a, p (PyStr.lower_char a) = p a
  | Seq r1 r2 | Alt r1 r2 => caseless r1 ∧ caseless r2
  | Star r1 | LazyStar r1 | Group r1 | Ahead r1 => caseless r1
  end.

(** The sampled Python files, in the order of the tally. *)
Definition py_files (fp : list (string * list SampledFile)) : list SampledFile :=
  flat_map
    (fun entry =>
       if is_js_family (fst entry) then []
       else if String.eqb (fst entry) "py" then snd entry else []) fp.

(** * Properties *)

(** ** Dictionaries *)

Section DictFacts.
Context {V : Type}.
Implicit Types (d : list (string * V)) (k : string) (v : V).

Lemma get_set_eq k v d : Dict.get k (Dict.set k v d) = Some v.
Proof.
  induction d as [|[k' v'] d IH]; simpl.
  - now rewrite String.eqb_refl.
  - destruct (String.eqb k k') eqn:E; simpl.
    + now rewrite String.eqb_refl.
    + now rewrite E.
Qed.

Lemma get_set_ne k k' v d : k ≠ k' → Dict.get k' (Dict.set k v d) = Dict.get k' d.
Proof.
  intros Hne. induction d as [|[k0 v0] d IH]; simpl.
  - destruct (String.eqb k' k) eqn:E; [|reflexivity].
    apply String.eqb_eq in E. congruence.
  - destruct (String.eqb k k0) eqn:E; simpl.
    + apply String.eqb_eq in E. subst k0.
      destruct (String.eqb k' k) eqn:E'; [|reflexivity].
      apply String.eqb_eq in E'. congruence.
    + now rewrite IH.
Qed.

Lemma in_keys_set k k' v d :
  In k' (Dict.keys (Dict.set k v d)) ↔ k' = k ∨ In k' (Dict.keys d).
Proof.
  unfold Dict.keys. induction d as [|[k0 v0] d IH]; simpl.
  - intuition.
  - destruct (String.eqb k k0) eqn:E; simpl.
    + apply String.eqb_eq in E. subst k0. intuition.
    + rewrite IH. intuition.
Qed.

Lemma keys_set_present k v d :
  In k (Dict.keys d) → Dict.keys (Dict.set k v d) = Dict.keys d.
Proof.
  unfold Dict.keys. induction d as [|[k0 v0] d IH]; simpl; [tauto|].
  intros Hin. destruct (String.eqb k k0) eqn:E; simpl.
  - apply String.eqb_eq in E. now subst k0.
  - f_equal. apply IH. destruct Hin as [->|]; [|assumption].
    now rewrite String.eqb_refl in E.
Qed.

Lemma get_None_keys k d : Dict.get k d = None ↔ ¬ In k (Dict.keys d).
Proof.
  unfold Dict.keys. induction d as [|[k0 v0] d IH]; simpl; [tauto|].
  destruct (String.eqb k k0) eqn:E.
  - apply String.eqb_eq in E. subst k0. split; [discriminate|tauto].
  - apply String.eqb_neq in E. rewrite IH. intuition congruence.
Qed.

Lemma get_In k v d : Dict.get k d = Some v → In (k, v) d.
Proof.
  induction d as [|[k0 v0] d IH]; simpl; [discriminate|].
  destruct (String.eqb k k0) eqn:E.
  - apply String.eqb_eq in E. intros [= ->]. subst. now left.
  - intros H. right. now apply IH.
Qed.

End DictFacts.

(** ** Pattern extraction on the Python scenario *)

(** C1, as the code has it: on the two-file repository the import set also
    holds [defaultdict], which the pattern [import\s+X] finds in the text
    [from collections import defaultdict]; the classes are [{Foo}] and the
    functions [{bar}]. *)
Theorem python_scenario_extracts :
  _extract_python_imports python_sample = {[ "os"; "collections"; "defaultdict" ]} ∧
  _extract_python_classes python_sample = {[ "Foo" ]} ∧
  _extract_python_functions python_sample = {[ "bar" ]}.
Proof. repeat split; vm_compute; reflexivity. Qed.

(** C1, as the spec states it, fails: the import set is not
    [{os, collections}]. *)
Lemma python_scenario_imports_not_as_stated :
  ¬ (_extract_python_imports python_sample = {[ "os"; "collections" ]} ∧
     _extract_python_classes python_sample = {[ "Foo" ]} ∧
     _extract_python_functions python_sample = {[ "bar" ]}).
Proof.
  intros [H _]. apply (f_equal elements) in H. vm_compute in H. discriminate H.
Qed.

(** ** The AI call *)

(** C2 at the failing input: when the call raises, the placeholder holds
    four keys, each set to the error string, and no [best_practices]. *)
Theorem ai_failure_placeholder_lacks_best_practices (message : string) :
  Dict.keys (ai_analysis (Raised message))
    = ["overview"; "patterns"; "recommendations"; "examples"] ∧
  (∀ k v, In (k, v) (ai_analysis (Raised message)) → v = "Error during AI analysis") ∧
  Dict.get "best_practices" (ai_analysis (Raised message)) = None.
Proof.
  split; [reflexivity|]. split; [|reflexivity].
  intros k v H. simpl in H. intuition congruence.
Qed.

(** ** The parser of the AI reply *)

(** The replies of the spec's scenarios: one header, no header, headers
    out of the canonical order. *)
Example parse_overview_only :
  _parse_ai_analysis ("# Overview" +:+ nl +:+ "Hello") = [("overview", "Hello")].
Proof. reflexivity. Qed.

Example parse_empty_reply : _parse_ai_analysis EmptyString = [].
Proof. reflexivity. Qed.

Example parse_headers_out_of_order :
  _parse_ai_analysis
    ("# Recommendations" +:+ nl +:+ "r" +:+ nl +:+ "# Overview" +:+ nl +:+ "o" +:+ nl)
  = [("overview", "o"); ("recommendations", "r")].
Proof. vm_compute. reflexivity. Qed.

(** C3: on every text the parser returns a mapping whose keys are distinct
    and among the five section keys, so it holds between 0 and 5 entries. *)
Theorem parse_ai_analysis_total (text : string) :
  incl (Dict.keys (_parse_ai_analysis text)) section_keys ∧
  NoDup (Dict.keys (_parse_ai_analysis text)) ∧
  (length (_parse_ai_analysis text) <= 5)%nat.
Proof.
  unfold _parse_ai_analysis, section_keys.
  destruct (search overview_pattern text), (search patterns_pattern text),
    (search examples_pattern text), (search best_practices_pattern text),
    (search recommendations_pattern text); simpl; split_and!;
    solve [ intros k Hk; simpl in *; tauto
          | compute_done
          | lia ].
Qed.

(** ** The scan *)

Lemma scan_file_skipped a p f : accepted f = false → scan_file a (p, f) = a.
Proof.
  unfold accepted, scan_file. intros H. apply negb_false_iff in H. now rewrite H.
Qed.

Lemma oversized_not_accepted f : (1000000 < fsize f)%N → accepted f = false.
Proof.
  intros H. unfold accepted. apply N.ltb_lt in H. rewrite H.
  now rewrite orb_true_r.
Qed.

Lemma scan_files_cons a e es : scan_files a (e :: es) = scan_files (scan_file a e) es.
Proof. reflexivity. Qed.

Lemma scan_files_app a es1 es2 :
  scan_files a (es1 ++ es2) = scan_files (scan_files a es1) es2.
Proof. apply fold_left_app. Qed.

(** The fields a scan never writes. *)
Lemma scan_file_config a e :
  max_files_per_type (scan_file a e) = max_files_per_type a ∧
  excluded_dirs (scan_file a e) = excluded_dirs a.
Proof.
  destruct e as [p f]. unfold scan_file.
  destruct (_is_binary_file f || N.ltb 1000000 (fsize f)); split; reflexivity.
Qed.

Lemma scan_files_config es a :
  max_files_per_type (scan_files a es) = max_files_per_type a ∧
  excluded_dirs (scan_files a es) = excluded_dirs a.
Proof.
  revert a. induction es as [|e es IH]; intros a; [simpl; tauto|].
  rewrite scan_files_cons. destruct (IH (scan_file a e)) as [-> ->].
  apply scan_file_config.
Qed.

(** *** The sample store *)

Lemma samples_set ext ext' l fp :
  samples ext' (Dict.set ext l fp) = if String.eqb ext ext' then l else samples ext' fp.
Proof.
  unfold samples. destruct (String.eqb ext ext') eqn:E.
  - apply String.eqb_eq in E. subst. now rewrite get_set_eq.
  - apply String.eqb_neq in E. now rewrite get_set_ne.
Qed.

Lemma samples_touch ext ext' fp : samples ext' (touch ext fp) = samples ext' fp.
Proof.
  unfold touch, Dict.mem. destruct (Dict.get ext fp) eqn:E; [reflexivity|].
  rewrite samples_set. destruct (String.eqb ext ext') eqn:E'; [|reflexivity].
  apply String.eqb_eq in E'. subst. unfold samples. now rewrite E.
Qed.

Lemma samples_scan_file a e ext :
  samples ext (file_patterns (scan_file a e)) =
    match sampleable ext e with
    | Some s =>
        if Nat.ltb (length (samples ext (file_patterns a))) (max_files_per_type a)
        then samples ext (file_patterns a) ++ [s]
        else samples ext (file_patterns a)
    | None => samples ext (file_patterns a)
    end.
Proof.
  destruct e as [p f]. unfold sampleable, scan_file, accepted. simpl.
  destruct (_is_binary_file f || N.ltb 1000000 (fsize f)); simpl; [reflexivity|].
  destruct (String.eqb (file_type (fname f)) ext) eqn:E.
  - apply String.eqb_eq in E. subst ext. rewrite samples_touch.
    destruct (Nat.ltb _ _).
    + destruct (fdecoding f); rewrite ?samples_set, ?String.eqb_refl, ?samples_touch;
        reflexivity.
    + rewrite samples_touch. now destruct (fdecoding f).
  - assert (samples ext (touch (file_type (fname f)) (file_patterns a))
            = samples ext (file_patterns a)) as Ht by apply samples_touch.
    destruct (Nat.ltb _ _); [|exact Ht].
    destruct (fdecoding f); rewrite ?samples_set, ?E; exact Ht.
Qed.

Lemma samples_scan_files es a ext :
  samples ext (file_patterns (scan_files a es)) =
    samples ext (file_patterns a) ++
    firstn (max_files_per_type a - length (samples ext (file_patterns a))) (readable ext es).
Proof.
  revert a. induction es as [|e es IH]; intros a.
  - simpl. now rewrite firstn_nil, app_nil_r.
  - rewrite scan_files_cons, IH. destruct (scan_file_config a e) as [-> _].
    cbn [readable flat_map]. fold (readable ext es).
    rewrite samples_scan_file. destruct (sampleable ext e) as [s|]; simpl; [|reflexivity].
    destruct (Nat.ltb _ _) eqn:E.
    + apply Nat.ltb_lt in E. rewrite length_app. simpl.
      replace (max_files_per_type a - length (samples ext (file_patterns a)))
        with (S (max_files_per_type a - (length (samples ext (file_patterns a)) + 1)))
        by lia.
      simpl. now rewrite <- app_assoc.
    + apply Nat.ltb_ge in E.
      replace (max_files_per_type a - length (samples ext (file_patterns a))) with 0
        by lia.
      reflexivity.
Qed.

(** *** The record map *)

Lemma file_data_scan_file a p f :
  file_data (scan_file a (p, f)) =
    if accepted f
    then Dict.set p {| fr_path := p; fr_type := file_type (fname f); fr_size := fsize f |}
           (file_data a)
    else file_data a.
Proof.
  unfold scan_file, accepted.
  now destruct (_is_binary_file f || N.ltb 1000000 (fsize f)).
Qed.

(** Every key of [file_data] was there before the scan or is the path of
    a file the scan accepted. *)
Lemma keys_scan_files es a k :
  In k (Dict.keys (file_data (scan_files a es))) →
  In k (Dict.keys (file_data a)) ∨ ∃ f, In (k, f) es ∧ accepted f = true.
Proof.
  revert a. induction es as [|[p f] es IH]; intros a; [simpl; tauto|].
  rewrite scan_files_cons. intros H. apply IH in H. destruct H as [H|[f' [Hin Hacc]]].
  - rewrite file_data_scan_file in H. destruct (accepted f) eqn:E; [|tauto].
    apply in_keys_set in H. destruct H as [->|H]; [|tauto].
    right. exists f. simpl. tauto.
  - right. exists f'. simpl. tauto.
Qed.

Lemma keys_scan_files_mono es a k :
  In k (Dict.keys (file_data a)) → In k (Dict.keys (file_data (scan_files a es))).
Proof.
  revert a. induction es as [|[p f] es IH]; intros a; [simpl; tauto|].
  rewrite scan_files_cons. intros H. apply IH. rewrite file_data_scan_file.
  destruct (accepted f); [|assumption]. apply in_keys_set. tauto.
Qed.

Lemma keys_scan_files_hit es a p f :
  In (p, f) es → accepted f = true → In p (Dict.keys (file_data (scan_files a es))).
Proof.
  revert a. induction es as [|[p' f'] es IH]; intros a; [simpl; tauto|].
  rewrite scan_files_cons. intros [[= -> ->]|Hin] Hacc.
  - apply keys_scan_files_mono. rewrite file_data_scan_file, Hacc.
    apply in_keys_set. tauto.
  - now apply IH.
Qed.

(** Every sampled file was there before the scan or is an accepted file of
    the walk. *)
Lemma sample_paths_scan_files es a ext s :
  In s (samples ext (file_patterns (scan_files a es))) →
  In s (samples ext (file_patterns a)) ∨
  ∃ f, In (sf_path s, f) es ∧ accepted f = true.
Proof.
  rewrite samples_scan_files. intros H. apply in_app_or in H.
  destruct H as [H|H]; [tauto|]. right.
  assert (In s (readable ext es)) as Hr.
  { revert H. generalize (max_files_per_type a - length (samples ext (file_patterns a))).
    intros n. revert n. induction (readable ext es) as [|x l IHl]; intros [|n]; simpl;
      try tauto.
    intros [->|H]; [tauto|]. right. eapply IHl, H. }
  unfold readable in Hr. apply in_flat_map in Hr. destruct Hr as [[p f] [Hin Hs]].
  unfold sampleable in Hs. simpl in Hs.
  destruct (accepted f) eqn:E; simpl in Hs; [|tauto].
  destruct (String.eqb _ _); [|simpl in Hs; tauto].
  destruct (fdecoding f); simpl in Hs; try tauto.
  destruct Hs as [<-|[]]. simpl. exists f. tauto.
Qed.

(** *** The counters *)

Lemma stat_empty k : stat k ∅ = 0.
Proof. unfold stat. now rewrite lookup_empty. Qed.

Lemma stat_incr k k' (m : gmap string nat) :
  stat k (incr k' m) = stat k m + (if String.eqb k k' then 1 else 0).
Proof.
  unfold incr, stat at 1. destruct (String.eqb k k') eqn:E.
  - apply String.eqb_eq in E. subst k'. rewrite lookup_insert_eq. simpl.
    unfold stat. lia.
  - apply String.eqb_neq in E. rewrite lookup_insert_ne by congruence.
    fold (stat k m). lia.
Qed.

Lemma stats_scan_file a p f :
  stats (scan_file a (p, f)) =
    if accepted f
    then incr ("files_by_type_" +:+ file_type (fname f)) (incr "total_files" (stats a))
    else stats a.
Proof.
  unfold scan_file, accepted.
  now destruct (_is_binary_file f || N.ltb 1000000 (fsize f)).
Qed.

Lemma stat_scan_files es a k :
  stat k (stats (scan_files a es)) = stat k (stats a) + list_sum (map (hits k) es).
Proof.
  revert a. induction es as [|[p f] es IH]; intros a; [simpl; lia|].
  rewrite scan_files_cons, IH, stats_scan_file.
  change (list_sum (map (hits k) ((p, f) :: es)))
    with (hits k (p, f) + list_sum (map (hits k) es)).
  unfold hits at 2. simpl snd. destruct (accepted f); [|lia].
  rewrite !stat_incr. lia.
Qed.

(** ** Size ceiling *)

(** C4: a file above 1,000,000 bytes leaves no trace.  The scan ends in
    the state it reaches on the walk without that file, so counters,
    records, samples and the PatternSets drawn from the samples are those
    of a repository that lacks it; and when nothing else lies at its path,
    the path is no key of [file_data] and the path of no sampled file. *)
Theorem oversized_file_is_recorded_nowhere
    (repo : tree) (es1 es2 : list (string * file)) (p : string) (f : file) :
  walk (excluded_dirs init) EmptyString repo = es1 ++ (p, f) :: es2 →
  (1000000 < fsize f)%N →
  (∀ f', ¬ In (p, f') (es1 ++ es2)) →
  let a' := scan_repo init repo in
  a' = scan_files init (es1 ++ es2) ∧
  Dict.get p (file_data a') = None ∧
  (∀ ext s, In s (samples ext (file_patterns a')) → sf_path s ≠ p) ∧
  patterns_by_type a' = patterns_by_type (scan_files init (es1 ++ es2)) ∧
  (∀ k, stat k (stats a') = list_sum (map (hits k) (es1 ++ es2))).
Proof.
  intros Hwalk Hsize Hunique a'.
  assert (a' = scan_files init (es1 ++ es2)) as Heq.
  { unfold a', scan_repo. rewrite Hwalk, !scan_files_app, scan_files_cons.
    now rewrite (scan_file_skipped _ _ _ (oversized_not_accepted _ Hsize)). }
  split; [exact Heq|]. rewrite Heq. split_and!.
  - apply get_None_keys. intros Hin. apply keys_scan_files in Hin.
    destruct Hin as [[]|[f' [Hin _]]]. exact (Hunique f' Hin).
  - intros ext s Hin Hp. apply sample_paths_scan_files in Hin.
    destruct Hin as [[]|[f' [Hin _]]]. rewrite Hp in Hin. exact (Hunique f' Hin).
  - reflexivity.
  - intros k. now rewrite stat_scan_files, stat_empty.
Qed.

Lemma oversized_file_is_recorded_nowhere_witness :
  let a' := scan_repo init big_file_repo in
  a' = scan_files init ([] ++ [("a.py", small_file)]) ∧
  Dict.get "big.py" (file_data a') = None ∧
  (∀ ext s, In s (samples ext (file_patterns a')) → sf_path s ≠ "big.py") ∧
  patterns_by_type a' = patterns_by_type (scan_files init ([] ++ [("a.py", small_file)])) ∧
  (∀ k, stat k (stats a') = list_sum (map (hits k) ([] ++ [("a.py", small_file)]))).
Proof.
  apply (oversized_file_is_recorded_nowhere big_file_repo [] [("a.py", small_file)]
           "big.py" big_file).
  - reflexivity.
  - reflexivity.
  - intros f' [H|[]]. discriminate H.
Defined.

(** ** Two runs over one tree *)

Lemma file_data_scan_files_congr es a1 a2 :
  file_data a1 = file_data a2 →
  file_data (scan_files a1 es) = file_data (scan_files a2 es).
Proof.
  revert a1 a2. induction es as [|[p f] es IH]; intros a1 a2 H; [exact H|].
  rewrite !scan_files_cons. apply IH. now rewrite !file_data_scan_file, H.
Qed.

Lemma stats_scan_files_congr es a1 a2 :
  stats a1 = stats a2 → stats (scan_files a1 es) = stats (scan_files a2 es).
Proof.
  revert a1 a2. induction es as [|[p f] es IH]; intros a1 a2 H; [exact H|].
  rewrite !scan_files_cons. apply IH. now rewrite !stats_scan_file, H.
Qed.

(** C5: two runs of the Sampler over an unchanged tree, each by a freshly
    constructed analyzer, end with the same FileRecord keys and the same
    per-extension counts, whatever else the analyzers hold: the keys are
    the paths of the accepted files of the walk, and every counter is the
    number of accepted files that count for it. *)
Theorem two_scans_of_a_tree_agree (a1 a2 : analyzer) (repo : tree) :
  file_data a1 = [] → file_data a2 = [] →
  stats a1 = ∅ → stats a2 = ∅ →
  excluded_dirs a1 = excluded_dirs a2 →
  let walked := walk (excluded_dirs a1) EmptyString repo in
  let r1 := scan_repo a1 repo in
  let r2 := scan_repo a2 repo in
  Dict.keys (file_data r1) = Dict.keys (file_data r2) ∧
  (∀ ext, stat ("files_by_type_" +:+ ext) (stats r1)
          = stat ("files_by_type_" +:+ ext) (stats r2)) ∧
  (∀ k, In k (Dict.keys (file_data r1)) ↔ ∃ f, In (k, f) walked ∧ accepted f = true) ∧
  (∀ k, stat k (stats r1) = list_sum (map (hits k) walked)).
Proof.
  intros Hd1 Hd2 Hs1 Hs2 Hex walked r1 r2. unfold r1, r2, scan_repo.
  rewrite <- Hex. fold walked. split_and!.
  - f_equal. apply file_data_scan_files_congr. now rewrite Hd1, Hd2.
  - intros ext. f_equal. apply stats_scan_files_congr. now rewrite Hs1, Hs2.
  - intros k. split.
    + intros H. apply keys_scan_files in H. rewrite Hd1 in H.
      destruct H as [[]|H]. exact H.
    + intros [f [Hin Hacc]]. now apply keys_scan_files_hit with f.
  - intros k. now rewrite stat_scan_files, Hs1, stat_empty.
Qed.

Lemma two_scans_of_a_tree_agree_witness :
  let walked := walk (excluded_dirs init) EmptyString python_repo in
  let r1 := scan_repo init python_repo in
  let r2 := scan_repo other_fresh python_repo in
  Dict.keys (file_data r1) = Dict.keys (file_data r2) ∧
  (∀ ext, stat ("files_by_type_" +:+ ext) (stats r1)
          = stat ("files_by_type_" +:+ ext) (stats r2)) ∧
  (∀ k, In k (Dict.keys (file_data r1)) ↔ ∃ f, In (k, f) walked ∧ accepted f = true) ∧
  (∀ k, stat k (stats r1) = list_sum (map (hits k) walked)).
Proof.
  apply (two_scans_of_a_tree_agree init other_fresh python_repo); reflexivity.
Defined.

(** ** The sample cap *)

(** The cap is an invariant of the scan. *)
Lemma sample_cap_invariant es a ext :
  (length (samples ext (file_patterns a)) <= max_files_per_type a)%nat →
  (length (samples ext (file_patterns (scan_files a es))) <= max_files_per_type a)%nat.
Proof.
  intros H. rewrite samples_scan_files, length_app, length_firstn. lia.
Qed.

(** C6, as the code has it: from an empty sample store, the sample of an
    extension never exceeds [max_files_per_type], and it is made of the
    first files of the walk, in walk order, among the accepted files of
    that extension whose content decodes. *)
Theorem sample_is_first_readable_files (a : analyzer) (repo : tree) (ext : string) :
  file_patterns a = [] →
  let a' := scan_repo a repo in
  (length (samples ext (file_patterns a')) <= max_files_per_type a')%nat ∧
  samples ext (file_patterns a') =
    firstn (max_files_per_type a) (readable ext (walk (excluded_dirs a) EmptyString repo)).
Proof.
  intros Hfresh a'. unfold a', scan_repo.
  destruct (scan_files_config (walk (excluded_dirs a) EmptyString repo) a) as [-> _].
  split.
  - apply sample_cap_invariant. rewrite Hfresh. simpl. lia.
  - rewrite samples_scan_files, Hfresh. simpl. now rewrite Nat.sub_0_r.
Qed.

Lemma sample_is_first_readable_files_witness :
  let a' := scan_repo init python_repo in
  (length (samples "py" (file_patterns a')) <= max_files_per_type a')%nat ∧
  samples "py" (file_patterns a') =
    firstn 25 (readable "py" (walk (excluded_dirs init) EmptyString python_repo)).
Proof. apply (sample_is_first_readable_files init python_repo "py"). reflexivity. Defined.

(** C6, as the spec states it, fails: [x.py] is the first [py] file the
    walk meets and the scan records, yet the sample holds [y.py] alone. *)
Lemma sample_not_first_encountered :
  let a' := scan_repo init late_failure_repo in
  ¬ ((length (samples "py" (file_patterns a')) <= max_files_per_type a')%nat ∧
     map sf_path (samples "py" (file_patterns a')) =
       firstn (max_files_per_type init)
         (accepted_paths "py" (walk (excluded_dirs init) EmptyString late_failure_repo))).
Proof.
  intros a' [_ H]. vm_compute in H. discriminate H.
Qed.

(** ** Decode failure on the sampling read *)

(** C9: a file that passes the probe and the size test and then fails to
    decode gets its record and raises both counters; no sample changes.
    Its record and the counters are what they would be had it decoded. *)
Theorem decode_failure_only_skips_sample (a : analyzer) (rel_path : string) (f : file) :
  fdecoding f = BadLate →
  (fsize f <= 1000000)%N →
  let a' := scan_file a (rel_path, f) in
  let ext := file_type (fname f) in
  file_data a' =
    Dict.set rel_path {| fr_path := rel_path; fr_type := ext; fr_size := fsize f |}
      (file_data a) ∧
  stats a' = incr ("files_by_type_" +:+ ext) (incr "total_files" (stats a)) ∧
  (∀ e, samples e (file_patterns a') = samples e (file_patterns a)) ∧
  (∀ text,
     let decoded := scan_file a (rel_path, mkFile (fname f) (fsize f) (Utf8 text)) in
     file_data a' = file_data decoded ∧ stats a' = stats decoded).
Proof.
  intros Hdec Hsize a' ext.
  assert (∀ d, d ≠ BadEarly → accepted (mkFile (fname f) (fsize f) d) = true) as Hacc'.
  { intros d Hd. unfold accepted, _is_binary_file. simpl.
    apply N.ltb_ge in Hsize. rewrite Hsize. now destruct d. }
  assert (accepted f = true) as Hacc.
  { specialize (Hacc' BadLate). destruct f as [n s d]. simpl in *. subst d.
    now apply Hacc'. }
  unfold a'. split_and!.
  - now rewrite file_data_scan_file, Hacc.
  - now rewrite stats_scan_file, Hacc.
  - intros e. rewrite samples_scan_file. unfold sampleable. simpl. rewrite Hdec.
    now destruct (accepted f && String.eqb (file_type (fname f)) e).
  - intros text. cbv zeta.
    rewrite !file_data_scan_file, !stats_scan_file, Hacc, Hacc' by discriminate.
    split; reflexivity.
Qed.

Lemma decode_failure_only_skips_sample_witness :
  let f := mkFile "x.py" 20000 BadLate in
  let a' := scan_file init ("x.py", f) in
  file_data a' = [("x.py", {| fr_path := "x.py"; fr_type := "py"; fr_size := 20000 |})] ∧
  stat "total_files" (stats a') = 1 ∧
  stat "files_by_type_py" (stats a') = 1 ∧
  samples "py" (file_patterns a') = [].
Proof.
  destruct (decode_failure_only_skips_sample init "x.py" (mkFile "x.py" 20000 BadLate))
    as (Hdata & Hstats & Hsamples & _); [reflexivity | vm_compute; discriminate |].
  split_and!.
  - exact Hdata.
  - rewrite Hstats. reflexivity.
  - rewrite Hstats. reflexivity.
  - rewrite Hsamples. reflexivity.
Defined.

(** ** Entry points *)

(** The loop over the paths appends to each category the paths its
    patterns match, in order. *)
Lemma classify_fold (paths b f c g : list string) :
  fold_left classify_path paths
    [("backend", b); ("frontend", f); ("cli", c); ("config", g)] =
  [("backend", b ++ List.filter (first_match backend_patterns) paths);
   ("frontend", f ++ List.filter (first_match frontend_patterns) paths);
   ("cli", c ++ List.filter (first_match cli_patterns) paths);
   ("config", g ++ List.filter (first_match config_patterns) paths)].
Proof.
  unfold classify_path, check_category.
  generalize (first_match backend_patterns) (first_match frontend_patterns)
    (first_match cli_patterns) (first_match config_patterns).
  intros B F C G. revert b f c g.
  induction paths as [|p paths IH]; intros b f c g.
  - simpl. now rewrite !app_nil_r.
  - cbn [fold_left List.filter].
    destruct (B p), (F p), (C p), (G p); simpl; rewrite IH, <- ?app_assoc; reflexivity.
Qed.

Lemma drop_empty_nonempty {A} (d : list (string * list A)) k v :
  In (k, v) (drop_empty d) → v ≠ [].
Proof.
  unfold drop_empty. intros H. apply filter_In in H. destruct H as [_ H].
  simpl in H. now destruct v.
Qed.

(** The React repository: [app.js] is a backend and a frontend entry,
    package.json a config entry, and no [cli] category appears. *)
Example react_repo_entry_points :
  _identify_entry_points (scan_repo init react_repo) =
    [("backend", ["app.js"]); ("frontend", ["app.js"]); ("config", ["package.json"])].
Proof. vm_compute. reflexivity. Qed.

(** C7: no category of the EntryPointMap has an empty list; a category is
    in the map exactly when dot_plus recorded path matches one of its
    patterns, and then it holds those paths in the order of [file_data]. *)
Theorem entry_point_map_has_no_empty_category (a : analyzer) :
  (∀ category paths,
     In (category, paths) (_identify_entry_points a) → paths ≠ []) ∧
  (∀ category patterns,
     In (category, patterns) categories →
     Dict.get category (_identify_entry_points a) =
       match List.filter (first_match patterns) (Dict.keys (file_data a)) with
       | [] => None
       | matching => Some matching
       end).
Proof.
  split.
  - intros category paths. apply drop_empty_nonempty.
  - intros category patterns Hin. unfold _identify_entry_points.
    rewrite classify_fold. cbn [app]. unfold categories in Hin. cbn [In] in Hin.
    set (recorded := Dict.keys (file_data a)).
    destruct Hin as [H|[H|[H|[H|[]]]]]; injection H as <- <-;
      destruct (List.filter (first_match backend_patterns) recorded),
               (List.filter (first_match frontend_patterns) recorded),
               (List.filter (first_match cli_patterns) recorded),
               (List.filter (first_match config_patterns) recorded); reflexivity.
Qed.

(** ** Dependencies *)

Lemma javascript_tally fp d :
  javascript (fold_left tally_ext fp d) = fold_left tally_js (js_files fp) (javascript d).
Proof.
  revert d. induction fp as [|[ext files] fp IH]; intros d; [reflexivity|].
  cbn [fold_left js_files flat_map fst snd]. fold (js_files fp).
  rewrite IH, fold_left_app. unfold tally_ext.
  destruct (is_js_family ext); [reflexivity|].
  now destruct (String.eqb ext "py").
Qed.

Lemma get_javascript d :
  Dict.get "javascript" (drop_empty_tables d) =
    if bool_decide (javascript d = ∅) then None else Some (javascript d).
Proof.
  unfold drop_empty_tables. cbn [List.filter snd].
  destruct (bool_decide (javascript d = ∅)), (bool_decide (python d = ∅)),
    (bool_decide (java d = ∅)), (bool_decide (go d = ∅)); reflexivity.
Qed.

(** C8: whatever the candidate Python requirement files hold, the
    JavaScript table of the scenario has [react] at count 1 and
    [react-dom] at count 1, which is at least 1. *)
Theorem react_scenario_dependency_table (root : string → read_outcome) :
  ∃ table,
    Dict.get "javascript"
      (_identify_dependencies root react_package_json (scan_repo init react_repo))
      = Some table ∧
    table !! "react" = Some 1 ∧
    ∃ n, table !! "react-dom" = Some n ∧ (1 <= n)%nat.
Proof.
  unfold _identify_dependencies. rewrite get_javascript, javascript_tally.
  cbn [javascript].
  set (table := fold_left tally_js _ _).
  assert (table = {[ "react" := 1; "react-dom" := 1 ]}) as -> by (vm_compute; reflexivity).
  exists {[ "react" := 1; "react-dom" := 1 ]}. split_and!.
  - reflexivity.
  - reflexivity.
  - exists 1. split; [reflexivity|lia].
Qed.

(** Of the candidate requirement files the loop uses requirements.txt
    alone. *)
Lemma python_seed (root : string → read_outcome) :
  fold_left (seed_python_file root) python_req_files ∅ =
    match root "requirements.txt" with
    | Content content => fold_left requirements_line (PyStr.split_lines content) ∅
    | _ => ∅
    end.
Proof.
  unfold python_req_files. cbn [fold_left]. unfold seed_python_file.
  destruct (root "requirements.txt"), (root "Pipfile"), (root "pyproject.toml"),
    (root "setup.py"); reflexivity.
Qed.

(** * Further properties of the scan *)

Lemma tree_rect_nested (P : tree → Prop) :
  (∀ files subdirs, Forall (fun dt => P (snd dt)) subdirs → P (Dir files subdirs)) →
  ∀ t, P t.
Proof.
  intros H. fix IH 1. intros [files subdirs]. apply H.
  induction subdirs as [|[d t] l IHl]; constructor; [apply IH | exact IHl].
Qed.

Lemma walk_prune excluded t : ∀ prefix,
  walk excluded prefix t = walk [] prefix (prune excluded t).
Proof.
  induction t as [files subdirs IH] using tree_rect_nested. intros prefix.
  cbn [walk prune]. f_equal.
  induction subdirs as [|[d t] l IHl]; [reflexivity|].
  apply Forall_cons in IH. destruct IH as [Ht Hl]. simpl in Ht.
  destruct (existsb (String.eqb d) excluded) eqn:E.
  - rewrite app_nil_l. now apply IHl.
  - cbn [existsb]. rewrite (Ht (prefix +:+ d +:+ "/")). f_equal. now apply IHl.
Qed.

(** X1: nothing below an excluded directory reaches the scan: the scan of
    a repository is the scan of every file of the repository pruned of
    the excluded directories, at any depth, so two repositories that
    differ below excluded directories only are scanned alike. *)
Theorem excluded_directories_are_never_entered (a : analyzer) (repo : tree) :
  scan_repo a repo =
    scan_files a (walk [] EmptyString (prune (excluded_dirs a) repo)) ∧
  ∀ repo', prune (excluded_dirs a) repo' = prune (excluded_dirs a) repo →
           scan_repo a repo' = scan_repo a repo.
Proof.
  unfold scan_repo. split; [now rewrite walk_prune|].
  intros repo' H. now rewrite (walk_prune _ repo'), (walk_prune _ repo), H.
Qed.

(** *** Binary files *)

Lemma binary_not_accepted f : fdecoding f = BadEarly → accepted f = false.
Proof. intros H. unfold accepted, _is_binary_file. now rewrite H. Qed.

(** X2: a file on which the probe of [_is_binary_file] fails leaves no
    trace: the scan ends in the state of the walk without it, and when
    nothing else lies at its path, the path is no key of [file_data] and
    the path of no sampled file. *)
Theorem binary_file_is_recorded_nowhere
    (repo : tree) (es1 es2 : list (string * file)) (p : string) (f : file) :
  walk (excluded_dirs init) EmptyString repo = es1 ++ (p, f) :: es2 →
  fdecoding f = BadEarly →
  (∀ f', ¬ In (p, f') (es1 ++ es2)) →
  let a' := scan_repo init repo in
  a' = scan_files init (es1 ++ es2) ∧
  Dict.get p (file_data a') = None ∧
  (∀ ext s, In s (samples ext (file_patterns a')) → sf_path s ≠ p).
Proof.
  intros Hwalk Hbin Hunique a'.
  assert (a' = scan_files init (es1 ++ es2)) as Heq.
  { unfold a', scan_repo. rewrite Hwalk, !scan_files_app, scan_files_cons.
    now rewrite (scan_file_skipped _ _ _ (binary_not_accepted _ Hbin)). }
  split; [exact Heq|]. rewrite Heq. split.
  - apply get_None_keys. intros Hin. apply keys_scan_files in Hin.
    destruct Hin as [[]|[f' [Hin _]]]. exact (Hunique f' Hin).
  - intros ext s Hin Hp. apply sample_paths_scan_files in Hin.
    destruct Hin as [[]|[f' [Hin _]]]. rewrite Hp in Hin. exact (Hunique f' Hin).
Qed.

Lemma binary_file_is_recorded_nowhere_witness :
  let a' := scan_repo init binary_file_repo in
  a' = scan_files init ([] ++ [("a.py", small_file)]) ∧
  Dict.get "logo.png" (file_data a') = None ∧
  (∀ ext s, In s (samples ext (file_patterns a')) → sf_path s ≠ "logo.png").
Proof.
  apply (binary_file_is_recorded_nowhere binary_file_repo [] [("a.py", small_file)]
           "logo.png" binary_file).
  - reflexivity.
  - reflexivity.
  - intros f' [H|[]]. discriminate H.
Defined.

(** *** The records *)

Lemma lower_char_idempotent a : PyStr.lower_char (PyStr.lower_char a) = PyStr.lower_char a.
Proof. destruct a as [[] [] [] [] [] [] [] []]; reflexivity. Qed.

Lemma lower_char_not_upper a : Re.is_upper (PyStr.lower_char a) = false.
Proof. destruct a as [[] [] [] [] [] [] [] []]; reflexivity. Qed.

Lemma lower_char_dot a : Ascii.eqb (PyStr.lower_char a) "." = Ascii.eqb a ".".
Proof. destruct a as [[] [] [] [] [] [] [] []]; reflexivity. Qed.

Lemma lower_no_upper s : has_upper (PyStr.lower s) = false.
Proof.
  induction s as [|a s IH]; [reflexivity|]. simpl.
  now rewrite lower_char_not_upper, IH.
Qed.

Lemma lower_has_dot s : has_dot (PyStr.lower s) = has_dot s.
Proof.
  induction s as [|a s IH]; [reflexivity|]. simpl.
  now rewrite lower_char_dot, IH.
Qed.

Lemma last_dot_suffix_None s : last_dot_suffix s = None → has_dot s = false.
Proof.
  induction s as [|a s IH]; [reflexivity|]. simpl.
  destruct (last_dot_suffix s); [discriminate|].
  destruct (Ascii.eqb a "."); [discriminate|]. intros _. now apply IH.
Qed.

Lemma last_dot_suffix_Some s t :
  last_dot_suffix s = Some t → ∃ e, t = String "." e ∧ has_dot e = false.
Proof.
  induction s as [|a s IH]; [discriminate|]. simpl.
  destruct (last_dot_suffix s) as [e'|] eqn:E.
  - intros [= <-]. now apply IH.
  - destruct (Ascii.eqb a ".") eqn:Ea; [|discriminate].
    apply Ascii.eqb_eq in Ea. subst a. intros [= <-].
    exists s. split; [reflexivity|]. now apply last_dot_suffix_None.
Qed.

(** The type of a file is in lower case and holds no dot. *)
Lemma file_type_shape name :
  has_upper (file_type name) = false ∧ has_dot (file_type name) = false.
Proof.
  unfold file_type, splitext_ext.
  destruct (last_dot_suffix (skip_dots name)) as [t|] eqn:E; simpl.
  - apply last_dot_suffix_Some in E. destruct E as [e [-> He]].
    now rewrite lower_no_upper, lower_has_dot.
  - split; reflexivity.
Qed.

Lemma in_set {V} k (v : V) d k' v' :
  In (k', v') (Dict.set k v d) → (k', v') = (k, v) ∨ In (k', v') d.
Proof.
  induction d as [|[k0 v0] d IH]; simpl.
  - intros [H|[]]. left. now symmetry.
  - destruct (String.eqb k k0); simpl.
    + intros [H|H]; [left; now symmetry | tauto].
    + intros [H|H]; [tauto|]. apply IH in H. tauto.
Qed.

Lemma records_scan_files es a k r :
  In (k, r) (file_data (scan_files a es)) →
  In (k, r) (file_data a) ∨
  ∃ f, In (k, f) es ∧ accepted f = true ∧
       r = {| fr_path := k; fr_type := file_type (fname f); fr_size := fsize f |}.
Proof.
  revert a. induction es as [|[p f] es IH]; intros a; [simpl; tauto|].
  rewrite scan_files_cons. intros H. apply IH in H.
  destruct H as [H|[f' (Hin & Hacc & Hr)]].
  - rewrite file_data_scan_file in H. destruct (accepted f) eqn:E; [|tauto].
    apply in_set in H. destruct H as [[= -> ->]|H]; [|tauto].
    right. exists f. simpl. tauto.
  - right. exists f'. simpl. tauto.
Qed.

(** X3: every FileRecord sits under its own path, comes from a file of
    the walk that is neither binary nor above 1,000,000 bytes, carries
    that file's size, and has a type in lower case without a dot. *)
Theorem file_records_are_well_formed (repo : tree) (k : string) (r : FileRecord) :
  In (k, r) (file_data (scan_repo init repo)) →
  fr_path r = k ∧
  (fr_size r <= 1000000)%N ∧
  has_upper (fr_type r) = false ∧
  has_dot (fr_type r) = false ∧
  ∃ f, In (k, f) (walk (excluded_dirs init) EmptyString repo) ∧
       _is_binary_file f = false ∧
       fr_size r = fsize f ∧
       fr_type r = file_type (fname f).
Proof.
  intros H. apply records_scan_files in H. destruct H as [[]|[f (Hin & Hacc & ->)]].
  simpl. unfold accepted in Hacc. apply negb_true_iff, orb_false_iff in Hacc.
  destruct Hacc as [Hbin Hsize]. apply N.ltb_ge in Hsize.
  destruct (file_type_shape (fname f)) as [Hu Hd].
  split_and!; try assumption; try reflexivity.
  exists f. tauto.
Qed.

Lemma file_records_are_well_formed_witness :
  let r := {| fr_path := "a.py"; fr_type := "py"; fr_size := 44 |} in
  fr_path r = "a.py" ∧
  (fr_size r <= 1000000)%N ∧
  has_upper (fr_type r) = false ∧
  has_dot (fr_type r) = false ∧
  ∃ f, In ("a.py", f) (walk (excluded_dirs init) EmptyString python_repo) ∧
       _is_binary_file f = false ∧
       fr_size r = fsize f ∧
       fr_type r = file_type (fname f).
Proof.
  apply (file_records_are_well_formed python_repo "a.py"
           {| fr_path := "a.py"; fr_type := "py"; fr_size := 44 |}).
  left. reflexivity.
Defined.

(** *** Counters and records *)

Lemma hits_total e : hits "total_files" e = if accepted (snd e) then 1 else 0.
Proof. unfold hits. now destruct (accepted (snd e)). Qed.

Lemma length_set_absent {V} k (v : V) d :
  ¬ In k (Dict.keys d) → length (Dict.set k v d) = S (length d).
Proof.
  unfold Dict.keys. induction d as [|[k0 v0] d IH]; simpl; [reflexivity|].
  intros H. destruct (String.eqb k k0) eqn:E.
  - apply String.eqb_eq in E. subst k0. exfalso. apply H. now left.
  - simpl. f_equal. apply IH. tauto.
Qed.

Lemma length_scan_files es a :
  List.NoDup (map fst es) →
  (∀ p, In p (map fst es) → ¬ In p (Dict.keys (file_data a))) →
  length (file_data (scan_files a es)) =
    length (file_data a) + list_sum (map (hits "total_files") es).
Proof.
  revert a. induction es as [|[p f] es IH]; intros a Hnd Hfresh; [simpl; lia|].
  rewrite scan_files_cons. inversion Hnd as [|? ? Hp Hnd']; subst.
  change (list_sum (map (hits "total_files") ((p, f) :: es)))
    with (hits "total_files" (p, f) + list_sum (map (hits "total_files") es)).
  rewrite hits_total. simpl snd. rewrite IH; [|exact Hnd'|].
  - rewrite file_data_scan_file. destruct (accepted f); [|lia].
    rewrite length_set_absent; [lia|]. apply Hfresh. now left.
  - intros q Hq Hin. rewrite file_data_scan_file in Hin.
    destruct (accepted f).
    + apply in_keys_set in Hin. destruct Hin as [->|Hin]; [tauto|].
      apply (Hfresh q); simpl; tauto.
    + apply (Hfresh q); simpl; tauto.
Qed.

(** X4: when the paths of the walk are distinct, as they are on disk,
    [total_files] is the number of FileRecords. *)
Theorem total_files_counts_the_records (repo : tree) :
  List.NoDup (map fst (walk (excluded_dirs init) EmptyString repo)) →
  stat "total_files" (stats (scan_repo init repo)) =
    length (file_data (scan_repo init repo)).
Proof.
  intros Hnd. unfold scan_repo.
  rewrite stat_scan_files, stat_empty, length_scan_files; [reflexivity|exact Hnd|].
  intros p _ [].
Qed.

Lemma total_files_counts_the_records_witness :
  stat "total_files" (stats (scan_repo init python_repo)) =
    length (file_data (scan_repo init python_repo)).
Proof.
  apply (total_files_counts_the_records python_repo).
  repeat constructor; simpl; intuition discriminate.
Defined.

Lemma by_type_total_insert k v (m : gmap string nat) :
  m !! k = None →
  by_type_total (<[k := v]> m) =
    (if PyStr.startswith "files_by_type_" k then v else 0) + by_type_total m.
Proof.
  intros H. unfold by_type_total. rewrite map_fold_insert_L; [|intros; repeat case_match; lia|exact H].
  destruct (PyStr.startswith "files_by_type_" k); lia.
Qed.

Lemma by_type_total_incr k (m : gmap string nat) :
  by_type_total (incr k m) =
    (if PyStr.startswith "files_by_type_" k then 1 else 0) + by_type_total m.
Proof.
  unfold incr, stat. destruct (m !! k) as [x|] eqn:E.
  - change (default 0 (Some x)) with x.
    rewrite <- (insert_delete_eq m).
    rewrite <- (insert_delete_id m k x E) at 2.
    rewrite !by_type_total_insert by apply lookup_delete_eq.
    destruct (PyStr.startswith "files_by_type_" k); lia.
  - change (default 0 None) with 0. now rewrite by_type_total_insert.
Qed.

Lemma by_type_total_scan_files es a :
  by_type_total (stats (scan_files a es)) =
    by_type_total (stats a) + list_sum (map (hits "total_files") es).
Proof.
  revert a. induction es as [|[p f] es IH]; intros a; [simpl; lia|].
  rewrite scan_files_cons, IH, stats_scan_file.
  change (list_sum (map (hits "total_files") ((p, f) :: es)))
    with (hits "total_files" (p, f) + list_sum (map (hits "total_files") es)).
  rewrite hits_total. simpl snd. destruct (accepted f); [|lia].
  rewrite !by_type_total_incr.
  change (PyStr.startswith "files_by_type_" "total_files") with false.
  change (PyStr.startswith "files_by_type_" ("files_by_type_" +:+ file_type (fname f)))
    with true.
  cbv iota. lia.
Qed.

(** X5: after a scan the per-extension counters add up to
    [total_files]. *)
Theorem per_type_counts_add_up_to_total (repo : tree) :
  by_type_total (stats (scan_repo init repo)) =
    stat "total_files" (stats (scan_repo init repo)).
Proof.
  unfold scan_repo. rewrite by_type_total_scan_files, stat_scan_files, stat_empty.
  change (stats init) with (∅ : gmap string nat).
  unfold by_type_total. now rewrite map_fold_empty.
Qed.

(** *** The samples *)

Lemma length_slice_to n s : (N.of_nat (String.length (PyStr.slice_to n s)) <= n)%N.
Proof.
  revert n. induction s as [|a s IH]; intros n; simpl; [lia|].
  destruct (N.eqb n 0) eqn:E; simpl; [lia|].
  apply N.eqb_neq in E. specialize (IH (N.pred n)). lia.
Qed.

Lemma slice_to_short n s :
  (N.of_nat (String.length s) <= n)%N → PyStr.slice_to n s = s.
Proof.
  revert n. induction s as [|a s IH]; intros n; simpl; [reflexivity|].
  intros H. destruct (N.eqb n 0) eqn:E.
  - apply N.eqb_eq in E. lia.
  - f_equal. apply IH. lia.
Qed.

Lemma in_firstn {A} (x : A) n l : In x (firstn n l) → In x l.
Proof.
  revert n. induction l as [|y l IH]; intros [|n]; simpl; try tauto.
  intros [H|H]; [tauto|]. right. eapply IH, H.
Qed.

(** X6: every sampled file of an extension is a file of the walk of that
    extension whose content decodes; it has a FileRecord; its content is
    the text of the file cut at 100,000 characters, the whole text when
    that is no longer. *)
Theorem samples_come_from_recorded_files (repo : tree) (ext : string) (s : SampledFile) :
  In s (samples ext (file_patterns (scan_repo init repo))) →
  In (sf_path s) (Dict.keys (file_data (scan_repo init repo))) ∧
  (N.of_nat (String.length (sf_content s)) <= 100000)%N ∧
  ∃ f text,
    In (sf_path s, f) (walk (excluded_dirs init) EmptyString repo) ∧
    file_type (fname f) = ext ∧
    fdecoding f = Utf8 text ∧
    sf_content s = PyStr.slice_to 100000 text ∧
    ((N.of_nat (String.length text) <= 100000)%N → sf_content s = text).
Proof.
  unfold scan_repo. rewrite samples_scan_files. simpl samples. rewrite app_nil_l.
  intros H. apply in_firstn in H. unfold readable in H.
  apply in_flat_map in H. destruct H as [[p f] [Hin Hs]].
  unfold sampleable in Hs. simpl in Hs.
  destruct (accepted f) eqn:Hacc; simpl in Hs; [|tauto].
  destruct (String.eqb (file_type (fname f)) ext) eqn:E; [|simpl in Hs; tauto].
  apply String.eqb_eq in E.
  destruct (fdecoding f) as [text| |] eqn:Hdec; simpl in Hs; try tauto.
  destruct Hs as [<-|[]]. simpl. split_and!.
  - now apply keys_scan_files_hit with f.
  - apply length_slice_to.
  - exists f, text. split_and!; try assumption; try reflexivity.
    apply slice_to_short.
Qed.

Lemma samples_come_from_recorded_files_witness :
  let s := {| sf_path := "b.py"; sf_content := b_py |} in
  In (sf_path s) (Dict.keys (file_data (scan_repo init python_repo))) ∧
  (N.of_nat (String.length (sf_content s)) <= 100000)%N ∧
  ∃ f text,
    In (sf_path s, f) (walk (excluded_dirs init) EmptyString python_repo) ∧
    file_type (fname f) = "py" ∧
    fdecoding f = Utf8 text ∧
    sf_content s = PyStr.slice_to 100000 text ∧
    ((N.of_nat (String.length text) <= 100000)%N → sf_content s = text).
Proof.
  apply (samples_come_from_recorded_files python_repo "py"
           {| sf_path := "b.py"; sf_content := b_py |}).
  right. left. reflexivity.
Defined.

(** *** PatternSets *)

Lemma keys_set_absent {V} k (v : V) d :
  ¬ In k (Dict.keys d) → Dict.keys (Dict.set k v d) = Dict.keys d ++ [k].
Proof.
  unfold Dict.keys. induction d as [|[k0 v0] d IH]; simpl; [reflexivity|].
  intros H. destruct (String.eqb k k0) eqn:E.
  - apply String.eqb_eq in E. subst k0. exfalso. apply H. now left.
  - simpl. f_equal. apply IH. tauto.
Qed.

Lemma nodup_keys_set {V} k (v : V) d :
  List.NoDup (Dict.keys d) → List.NoDup (Dict.keys (Dict.set k v d)).
Proof.
  intros H. destruct (in_dec string_dec k (Dict.keys d)) as [Hin|Hout].
  - now rewrite keys_set_present.
  - rewrite keys_set_absent by assumption.
    apply NoDup_ListNoDup, NoDup_app. rewrite !NoDup_ListNoDup.
    split_and!; [assumption| |repeat constructor; simpl; tauto].
    intros x Hx Hk. apply list_elem_of_In in Hx, Hk. simpl in Hk.
    destruct Hk as [->|[]]. tauto.
Qed.

Lemma nodup_keys_scan_files es a :
  List.NoDup (Dict.keys (file_patterns a)) →
  List.NoDup (Dict.keys (file_patterns (scan_files a es))).
Proof.
  revert a. induction es as [|[p f] es IH]; intros a H; [exact H|].
  rewrite scan_files_cons. apply IH. unfold scan_file.
  destruct (_is_binary_file f || N.ltb 1000000 (fsize f)); [exact H|]. simpl.
  assert (List.NoDup (Dict.keys (touch (file_type (fname f)) (file_patterns a)))) as Ht.
  { unfold touch. destruct (Dict.mem _ _); [exact H|]. now apply nodup_keys_set. }
  destruct (Nat.ltb _ _); [|exact Ht].
  destruct (fdecoding f); try exact Ht. now apply nodup_keys_set.
Qed.

Lemma get_flat_map_patterns ext (d : list (string * list SampledFile)) :
  List.NoDup (Dict.keys d) →
  Dict.get ext
    (flat_map
       (fun '(ext, files) =>
          match files with
          | [] => []
          | _ :: _ => [(ext, _extract_patterns ext files)]
          end) d) =
    match samples ext d with
    | [] => None
    | files => Some (_extract_patterns ext files)
    end.
Proof.
  unfold samples. induction d as [|[k files] d IH]; intros Hnd; [reflexivity|].
  inversion Hnd as [|? ? Hk Hnd']; subst. specialize (IH Hnd').
  cbn [flat_map Dict.get]. destruct (String.eqb ext k) eqn:E.
  - apply String.eqb_eq in E. subst k. destruct files as [|x files].
    + rewrite app_nil_l, IH. fold (Dict.keys d) in Hk.
      apply get_None_keys in Hk. now rewrite Hk.
    + simpl. now rewrite String.eqb_refl.
  - destruct files as [|x files]; [now rewrite app_nil_l|].
    simpl. now rewrite E.
Qed.

(** X7: an extension has a PatternSet in [patterns_by_type] exactly when
    its sample is not empty, and the PatternSet is then the one extracted
    from that sample; an extension whose files were all counted but none
    sampled has none. *)
Theorem patterns_by_type_follows_the_samples (repo : tree) (ext : string) :
  Dict.get ext (patterns_by_type (scan_repo init repo)) =
    match samples ext (file_patterns (scan_repo init repo)) with
    | [] => None
    | files => Some (_extract_patterns ext files)
    end.
Proof.
  unfold patterns_by_type. apply get_flat_map_patterns.
  unfold scan_repo. apply nodup_keys_scan_files. constructor.
Qed.

(** * Further properties of the dependency aggregator *)

Lemma positive_empty : positive ∅.
Proof. intros k n H. now rewrite lookup_empty in H. Qed.

Lemma positive_insert k v (m : gmap string nat) :
  (1 <= v)%nat → positive m → positive (<[k := v]> m).
Proof.
  intros Hv Hm k' n. destruct (decide (k = k')) as [->|Hne].
  - rewrite lookup_insert_eq. intros [= <-]. exact Hv.
  - rewrite lookup_insert_ne by assumption. apply Hm.
Qed.

Lemma positive_incr k (m : gmap string nat) : positive m → positive (incr k m).
Proof. intros H. apply positive_insert; [lia|exact H]. Qed.

Lemma fold_left_preserves {A B} (P : A → Prop) (f : A → B → A) l a :
  (∀ a b, P a → P (f a b)) → P a → P (fold_left f l a).
Proof.
  intros Hf. revert a. induction l as [|b l IH]; intros a Ha; [exact Ha|].
  simpl. apply IH, Hf, Ha.
Qed.

Lemma set_fold_preserves {B} (P : B → Prop) (f : string → B → B) b (X : gset string) :
  (∀ x r, P r → P (f x r)) → P b → P (set_fold f b X).
Proof.
  intros Hf Hb.
  apply (set_fold_ind_L (fun r _ => P r)); [exact Hb|]. intros x Y r _ Hr. now apply Hf.
Qed.

Lemma positive_seed_javascript pj m : positive m → positive (seed_javascript pj m).
Proof.
  intros H. destruct pj as [| |dependencies devDependencies]; try exact H.
  unfold seed_javascript. apply fold_left_preserves; [|exact H].
  intros t dep Ht. apply positive_insert; [lia|exact Ht].
Qed.

Lemma positive_seed_python root m req_file :
  positive m → positive (seed_python_file root m req_file).
Proof.
  intros H. unfold seed_python_file. destruct (root req_file); try exact H.
  destruct (String.eqb req_file "requirements.txt"); [|exact H].
  apply fold_left_preserves; [|exact H].
  intros t line Ht. unfold requirements_line.
  destruct (_ && _); [now apply positive_incr|exact Ht].
Qed.

Lemma positive_tally_js m file : positive m → positive (tally_js m file).
Proof.
  intros H. unfold tally_js. apply set_fold_preserves; [|exact H].
  intros imp t Ht. destruct (_ && _); [now apply positive_incr|exact Ht].
Qed.

Lemma positive_tally_py m file : positive m → positive (tally_py m file).
Proof.
  intros H. unfold tally_py. apply set_fold_preserves; [|exact H].
  intros imp t Ht. now apply positive_incr.
Qed.

Lemma positive_tally_ext d entry :
  positive (javascript d) ∧ positive (python d) ∧ positive (java d) ∧ positive (go d) →
  positive (javascript (tally_ext d entry)) ∧ positive (python (tally_ext d entry)) ∧
  positive (java (tally_ext d entry)) ∧ positive (go (tally_ext d entry)).
Proof.
  intros (Hjs & Hpy & Hjava & Hgo). destruct entry as [ext files]. unfold tally_ext.
  destruct (is_js_family ext); [|destruct (String.eqb ext "py")]; simpl; split_and!;
    try assumption;
    (apply fold_left_preserves; [|assumption]); intros t file Ht;
    [now apply positive_tally_js | now apply positive_tally_py].
Qed.

(** X8: every ecosystem table that [_identify_dependencies] returns is
    non-empty, and each of its counts is at least 1. *)
Theorem dependency_counts_are_positive
    (root : string → read_outcome) (pj : package_json) (a : analyzer)
    (ecosystem : string) (table : gmap string nat) :
  In (ecosystem, table) (_identify_dependencies root pj a) →
  table ≠ ∅ ∧ ∀ pkg n, table !! pkg = Some n → (1 <= n)%nat.
Proof.
  unfold _identify_dependencies, drop_empty_tables. intros H.
  apply filter_In in H. destruct H as [Hin Hne]. simpl in Hne.
  apply negb_true_iff, bool_decide_eq_false in Hne. split; [exact Hne|].
  match type of Hin with In _ [(_, javascript ?d); _; _; _] => set (final := d) in * end.
  assert (positive (javascript final) ∧ positive (python final) ∧
          positive (java final) ∧ positive (go final)) as (Hjs & Hpy & Hjava & Hgo).
  { unfold final. apply fold_left_preserves; [apply positive_tally_ext|].
    cbn [javascript python java go].
    split_and!; try apply positive_empty.
    - apply positive_seed_javascript, positive_empty.
    - apply fold_left_preserves; [|apply positive_empty].
      intros t f Ht. now apply positive_seed_python. }
  simpl in Hin. destruct Hin as [H|[H|[H|[H|[]]]]]; injection H as _ <-; assumption.
Qed.

Lemma dependency_counts_are_positive_witness :
  ({[ "requests" := 1 ]} : gmap string nat) ≠ ∅ ∧
  ∀ pkg n, ({[ "requests" := 1 ]} : gmap string nat) !! pkg = Some n → (1 <= n)%nat.
Proof.
  apply (dependency_counts_are_positive full_root NoPackageJson init "python").
  vm_compute. left. reflexivity.
Defined.

(** *** Manifest seeding *)

Lemma keys_fold_set {V} (l : list (string * V)) d k :
  In k (Dict.keys (fold_left (fun d kv => Dict.set (fst kv) (snd kv) d) l d)) ↔
  In k (Dict.keys d) ∨ In k (map fst l).
Proof.
  revert d. induction l as [|[k0 v0] l IH]; intros d; simpl; [tauto|].
  rewrite IH, in_keys_set. simpl. intuition.
Qed.

Lemma lookup_fold_insert_one (ks : list string) (t : gmap string nat) k :
  fold_left (fun t dep => <[dep := 1]> t) ks t !! k =
    if in_dec string_dec k ks then Some 1 else t !! k.
Proof.
  revert t. induction ks as [|k0 ks IH]; intros t; [reflexivity|].
  cbn [fold_left]. rewrite IH.
  destruct (in_dec string_dec k ks) as [Hin|Hout],
           (in_dec string_dec k (k0 :: ks)) as [Hin'|Hout']; try reflexivity.
  - exfalso. apply Hout'. now right.
  - destruct Hin' as [->|Hin']; [|tauto]. apply lookup_insert_eq.
  - rewrite lookup_insert_ne; [reflexivity|]. intros ->. apply Hout'. now left.
Qed.

(** X9: package.json seeds every package named in [dependencies] or
    [devDependencies] at count 1, also one named in both or named twice,
    and nothing else. *)
Theorem manifest_seeds_each_package_once
    (dependencies devDependencies : option (list (string * string))) (dep : string) :
  seed_javascript (PackageData dependencies devDependencies) ∅ !! dep =
    if in_dec string_dec dep
         (map fst (default [] dependencies ++ default [] devDependencies))
    then Some 1 else None.
Proof.
  unfold seed_javascript. rewrite lookup_fold_insert_one, lookup_empty.
  set (l := default [] dependencies ++ default [] devDependencies).
  pose proof (keys_fold_set l [] dep) as H. simpl in H.
  destruct (in_dec string_dec dep (Dict.keys _)), (in_dec string_dec dep (map fst l));
    tauto.
Qed.

(** *** Lines of requirements.txt *)

Lemma append_cons a s t : String a s +:+ t = String a (s +:+ t).
Proof. reflexivity. Qed.

Lemma append_empty_r s : s +:+ EmptyString = s.
Proof. induction s as [|a s IH]; [reflexivity|]. rewrite append_cons. now f_equal. Qed.

Lemma split_head_app c sep name rest :
  all_chars (is_not c) name = true →
  PyStr.split_head (String c sep) (name +:+ rest) =
    name +:+ PyStr.split_head (String c sep) rest.
Proof.
  induction name as [|a name IH]; [reflexivity|].
  cbn [all_chars]. intros H. apply andb_true_iff in H. destruct H as [Ha Hn].
  rewrite !append_cons. cbn [PyStr.split_head PyStr.startswith].
  unfold is_not in Ha. apply negb_true_iff in Ha.
  rewrite Ascii.eqb_sym, Ha. cbn [andb]. now rewrite IH.
Qed.

Lemma split_head_skip sep a s :
  PyStr.startswith sep (String a s) = false →
  PyStr.split_head sep (String a s) = String a (PyStr.split_head sep s).
Proof. intros H. cbn [PyStr.split_head]. now rewrite H. Qed.

Lemma split_head_none c sep name :
  all_chars (is_not c) name = true → PyStr.split_head (String c sep) name = name.
Proof.
  intros H. rewrite <- (append_empty_r name) at 1.
  rewrite split_head_app by assumption. simpl. apply append_empty_r.
Qed.

Lemma split_head_sep sep rest : PyStr.split_head sep (sep +:+ rest) = EmptyString.
Proof.
  assert (PyStr.startswith sep (sep +:+ rest) = true) as H.
  { induction sep as [|a sep IH]; [reflexivity|].
    rewrite append_cons. cbn [PyStr.startswith]. now rewrite Ascii.eqb_refl, IH. }
  destruct sep as [|a sep]; [now destruct rest|].
  rewrite append_cons in *. cbn [PyStr.split_head]. now rewrite H.
Qed.

Lemma all_chars_weaken (P Q : ascii → bool) s :
  (∀ a, P a = true → Q a = true) → all_chars P s = true → all_chars Q s = true.
Proof.
  intros HPQ. induction s as [|a s IH]; simpl; [reflexivity|].
  intros H. apply andb_true_iff in H. destruct H as [Ha Hs].
  now rewrite (HPQ a Ha), IH.
Qed.

Lemma rstrip_no_space s :
  all_chars (fun a => negb (PyStr.is_space a)) s = true → PyStr.rstrip s = s.
Proof.
  induction s as [|a s IH]; simpl; [reflexivity|].
  intros H. apply andb_true_iff in H. destruct H as [Ha Hs].
  rewrite IH by assumption. apply negb_true_iff in Ha. rewrite Ha. now destruct s.
Qed.

Lemma lstrip_no_space s :
  all_chars (fun a => negb (PyStr.is_space a)) s = true → PyStr.lstrip s = s.
Proof.
  destruct s as [|a s]; simpl; [reflexivity|].
  intros H. apply andb_true_iff in H. destruct H as [Ha _].
  apply negb_true_iff in Ha. now rewrite Ha.
Qed.

Lemma strip_no_space s :
  all_chars (fun a => negb (PyStr.is_space a)) s = true → PyStr.strip s = s.
Proof.
  intros H. unfold PyStr.strip. rewrite lstrip_no_space by assumption.
  now apply rstrip_no_space.
Qed.

Lemma rstrip_head a s : PyStr.is_space a = false → PyStr.rstrip (String a s) ≠ EmptyString.
Proof. intros H. simpl. rewrite H. now destruct (PyStr.rstrip s). Qed.

(** A line that starts with a plain name is taken as a requirement. *)
Lemma plain_line_is_parsed name rest :
  is_plain_name name = true →
  negb (String.eqb (PyStr.strip (name +:+ rest)) EmptyString) &&
  negb (PyStr.startswith "#" (name +:+ rest)) = true.
Proof.
  unfold is_plain_name. intros H. apply andb_true_iff in H. destruct H as [H Hc].
  apply andb_true_iff in H. destruct H as [He Hall].
  destruct name as [|a name]; [discriminate|].
  cbn [all_chars] in Hall. apply andb_true_iff in Hall. destruct Hall as [Ha _].
  apply andb_true_iff in Ha. destruct Ha as [Ha _].
  apply andb_true_iff in Ha. destruct Ha as [Ha _]. apply negb_true_iff in Ha.
  apply andb_true_iff. split.
  - apply negb_true_iff, String.eqb_neq. unfold PyStr.strip.
    rewrite append_cons. cbn [PyStr.lstrip]. rewrite Ha. now apply rstrip_head.
  - rewrite append_cons. exact Hc.
Qed.

Lemma plain_name_chars name :
  is_plain_name name = true →
  all_chars (fun a => negb (PyStr.is_space a)) name = true ∧
  all_chars (is_not "=") name = true ∧ all_chars (is_not ">") name = true.
Proof.
  unfold is_plain_name. intros H. apply andb_true_iff in H. destruct H as [H _].
  apply andb_true_iff in H. destruct H as [_ H].
  split_and!; refine (all_chars_weaken _ _ _ _ H); intros a Ha;
    apply andb_true_iff in Ha; destruct Ha as [Ha H3];
    apply andb_true_iff in Ha; destruct Ha as [H1 H2]; assumption.
Qed.

(** X10: a line of requirements.txt that is a plain name, or a plain name
    pinned by [==] or, with a version free of [=], by [>=], counts the
    name once more: the pin and the version are cut off. *)
Theorem pinned_requirement_counts_its_name
    (table : gmap string nat) (name version : string) :
  is_plain_name name = true →
  requirements_line table name = incr name table ∧
  requirements_line table (name +:+ "==" +:+ version) = incr name table ∧
  (all_chars (is_not "=") version = true →
   requirements_line table (name +:+ ">=" +:+ version) = incr name table).
Proof.
  intros Hplain. destruct (plain_name_chars name Hplain) as (Hsp & Heq & Hgt).
  unfold requirements_line. split_and!.
  - rewrite <- (append_empty_r name) at 1 2.
    rewrite (plain_line_is_parsed name EmptyString Hplain).
    rewrite (split_head_none "=") by assumption.
    rewrite (split_head_none ">") by assumption. now rewrite strip_no_space.
  - rewrite (plain_line_is_parsed name _ Hplain).
    rewrite (split_head_app "="), split_head_sep, append_empty_r by assumption.
    rewrite (split_head_none ">") by assumption. now rewrite strip_no_space.
  - intros Hv. rewrite (plain_line_is_parsed name _ Hplain).
    rewrite (split_head_app "=") by assumption.
    assert (PyStr.split_head "==" (">=" +:+ version) = ">=" +:+ version) as ->.
    { change (">=" +:+ version) with (String ">" (String "=" version)).
      rewrite split_head_skip by reflexivity.
      rewrite split_head_skip; [now rewrite split_head_none|].
      destruct version as [|a v]; [reflexivity|].
      cbn [all_chars] in Hv. apply andb_true_iff in Hv. destruct Hv as [Ha _].
      unfold is_not in Ha. apply negb_true_iff in Ha.
      cbn [PyStr.startswith]. change (Ascii.eqb "=" "=") with true.
      now rewrite (Ascii.eqb_sym "=" a), Ha. }
    rewrite (split_head_app ">"), split_head_sep, append_empty_r by assumption.
    now rewrite strip_no_space.
Qed.

Lemma pinned_requirement_counts_its_name_witness :
  requirements_line ∅ "flask" = incr "flask" ∅ ∧
  requirements_line ∅ ("flask" +:+ "==" +:+ "2.0") = incr "flask" ∅ ∧
  (all_chars (is_not "=") "2.0" = true →
   requirements_line ∅ ("flask" +:+ ">=" +:+ "2.0") = incr "flask" ∅).
Proof. apply (pinned_requirement_counts_its_name ∅ "flask" "2.0"). reflexivity. Defined.

(** *** The import tally *)

Lemma filter_length_perm {A} (g : A → bool) (l l' : list A) :
  l ≡ₚ l' → length (List.filter g l) = length (List.filter g l').
Proof.
  induction 1 as [|x l l' _ IH|x y l|l l' l'' _ IH1 _ IH2]; simpl.
  - reflexivity.
  - destruct (g x); simpl; now rewrite IH.
  - destruct (g x), (g y); reflexivity.
  - now rewrite IH1.
Qed.

(** A loop that raises the counter [key imp] for each element [imp] of a
    set that passes [cond] raises the counter [pkg] by the number of the
    passing elements whose key is [pkg]. *)
Lemma stat_set_fold_incr (cond : string → bool) (key : string → string)
    (table : gmap string nat) (X : gset string) (pkg : string) :
  stat pkg (set_fold (fun imp t => if cond imp then incr (key imp) t else t) table X) =
    stat pkg table +
    length (List.filter (fun imp => cond imp && String.eqb (key imp) pkg) (elements X)).
Proof.
  apply (set_fold_ind_L
    (fun r Y => stat pkg r = stat pkg table +
       length (List.filter (fun imp => cond imp && String.eqb (key imp) pkg)
                 (elements Y)))).
  - rewrite elements_empty. simpl. lia.
  - intros x Y r Hx Hr.
    rewrite (filter_length_perm _ _ _ (elements_union_singleton Y x Hx)). simpl.
    destruct (cond x); simpl.
    + rewrite stat_incr, Hr, (String.eqb_sym pkg).
      destruct (String.eqb (key x) pkg); simpl; lia.
    + exact Hr.
Qed.

(** X11: the tally of one sampled file raises the count of a package by
    the number of distinct import specifiers of the file that name it:
    for JS/TS the specifiers that start with neither [.] nor [/] and whose
    first path segment is the package, for Python the imports whose first
    dotted segment is the package. *)
Theorem tally_counts_distinct_imports
    (table : gmap string nat) (file : SampledFile) (pkg : string) :
  stat pkg (tally_js table file) =
    stat pkg table +
    length (List.filter (counts_for_js pkg) (elements (_extract_js_imports [file]))) ∧
  stat pkg (tally_py table file) =
    stat pkg table +
    length (List.filter (counts_for_py pkg) (elements (_extract_python_imports [file]))).
Proof.
  split.
  - unfold tally_js.
    apply (stat_set_fold_incr
             (fun imp => negb (PyStr.startswith "." imp) && negb (PyStr.startswith "/" imp))
             (PyStr.split_head "/")).
  - unfold tally_py.
    apply (stat_set_fold_incr (fun _ => true) (PyStr.split_head ".")).
Qed.

(** * Further properties of the extractors *)

Lemma elem_of_extract patterns files name :
  name ∈ extract patterns files ↔
  ∃ file p, In file files ∧ In p patterns ∧ In name (findall p (sf_content file)).
Proof.
  unfold extract. rewrite elem_of_list_to_set, list_elem_of_In, in_flat_map.
  split.
  - intros [file [Hf H]]. apply in_flat_map in H. destruct H as [p [Hp H]].
    exists file, p. tauto.
  - intros [file [p (Hf & Hp & H)]]. exists file. split; [exact Hf|].
    apply in_flat_map. exists p. tauto.
Qed.

(** * Further properties of the parser of the AI reply *)

Lemma rmatch_Star r1 s c k :
  rmatch (Star r1) s c k = star_loop r1 k (S (String.length s)) s c.
Proof. reflexivity. Qed.

Lemma rmatch_LazyStar r1 s c k :
  rmatch (LazyStar r1) s c k = lazy_loop r1 k (S (String.length s)) s c.
Proof. reflexivity. Qed.

(** A literal matches where the input starts with it. *)
Lemma rmatch_lit name s c k :
  rmatch (lit name) s c k =
    if PyStr.startswith name s then k (after_prefix name s) c else None.
Proof.
  unfold lit. revert s. induction name as [|a name IH]; intros s.
  - now destruct s.
  - assert (rmatch (lit_ false (String a name)) s c k =
            rmatch (chr false a) s c (fun s' c' => rmatch (lit_ false name) s' c' k)) as ->.
    { destruct name; reflexivity. }
    destruct s as [|b s]; [reflexivity|]. cbn [rmatch chr PyStr.startswith after_prefix].
    destruct (Ascii.eqb a b); [apply IH|reflexivity].
Qed.

(** The lazy run over any characters succeeds as soon as what follows it
    can match at the end of the input. *)
Lemma lazy_any_succeeds (k : string → option string → option outcome) :
  (∀ c, is_Some (k EmptyString c)) →
  ∀ s n c, (String.length s < n)%nat → is_Some (lazy_loop any k n s c).
Proof.
  intros Hend. induction s as [|a s IH]; intros n c Hn.
  - destruct n as [|n]; [simpl in Hn; lia|]. cbn [lazy_loop].
    destruct (Hend c) as [o Ho]. rewrite Ho. now exists o.
  - destruct n as [|n]; [simpl in Hn; lia|]. cbn [lazy_loop].
    destruct (k (String a s) c) as [o|]; [now exists o|].
    cbn [or_else rmatch any]. rewrite (proj2 (Nat.ltb_lt _ _)) by (simpl; lia).
    apply IH. simpl in Hn. lia.
Qed.

Lemma rmatch_Seq r1 r2 s c k :
  rmatch (Seq r1 r2) s c k = rmatch r1 s c (fun s' c' => rmatch r2 s' c' k).
Proof. reflexivity. Qed.

Lemma rmatch_Chr p s c k :
  rmatch (Chr p) s c k =
    match s with
    | String a s' => if p a then k s' c else None
    | EmptyString => None
    end.
Proof. reflexivity. Qed.

Lemma rmatch_Group r1 s c k :
  rmatch (Group r1) s c k = rmatch r1 s c (fun s' _ => k s' (Some (consumed s s'))).
Proof. reflexivity. Qed.

Lemma rmatch_Ahead r1 s c k :
  rmatch (Ahead r1) s c k =
    match rmatch r1 s c (fun s' c' => Some (s', c')) with
    | Some (_, c') => k s c'
    | None => None
    end.
Proof. reflexivity. Qed.

Lemma match_section name others s :
  (∀ c k, rmatch (alts (map lit others ++ [Eos])) EmptyString c k = k EmptyString c) →
  is_Some (match_here (section_pattern name others) false s) ↔
  PyStr.startswith name s = true.
Proof.
  intros Hend. unfold match_here, section_pattern.
  cbn [seqs]. rewrite rmatch_Seq, rmatch_lit.
  destruct (PyStr.startswith name s); [|split; [intros [? [=]]|discriminate]].
  split; [reflexivity|]. intros _.
  rewrite rmatch_Seq, rmatch_Group, rmatch_LazyStar.
  apply lazy_any_succeeds; [|lia].
  intros c. rewrite rmatch_Ahead, Hend. cbn [andb]. eauto.
Qed.

Lemma search_section name others text :
  (∀ c k, rmatch (alts (map lit others ++ [Eos])) EmptyString c k = k EmptyString c) →
  is_Some (search (section_pattern name others) text) ↔ occurs name text = true.
Proof.
  intros Hend. induction text as [|a text IH]; cbn [search occurs].
  - pose proof (match_section name others EmptyString Hend) as H.
    rewrite orb_false_r.
    destruct (match_here _ false EmptyString) as [[rest c]|].
    + split; intros _; [apply H|]; eauto.
    + split; [intros [? [=]]|]. intros Hs. apply H in Hs. destruct Hs as [? [=]].
  - pose proof (match_section name others (String a text) Hend) as H.
    destruct (match_here _ false (String a text)) as [[rest c]|].
    + split; intros _; [|eauto]. apply orb_true_iff. left. apply H. eauto.
    + rewrite IH. destruct (PyStr.startswith name (String a text)).
      * destruct (proj2 H eq_refl) as [? [=]].
      * reflexivity.
Qed.

Lemma get_add_section key k m (d : list (string * string)) :
  Dict.get key (add_section k m d) =
    if String.eqb k key then
      match m with
      | Some body => Some (PyStr.strip body)
      | None => Dict.get key d
      end
    else Dict.get key d.
Proof.
  destruct (String.eqb k key) eqn:E.
  - apply String.eqb_eq in E. subst k. destruct m; [apply get_set_eq|reflexivity].
  - apply String.eqb_neq in E. destruct m; [now apply get_set_ne|reflexivity].
Qed.

(** What the parser holds under each key. *)
Lemma get_parse text :
  let sections := _parse_ai_analysis text in
  Dict.get "overview" sections = PyStr.strip <$> search overview_pattern text ∧
  Dict.get "patterns" sections = PyStr.strip <$> search patterns_pattern text ∧
  Dict.get "examples" sections = PyStr.strip <$> search examples_pattern text ∧
  Dict.get "best_practices" sections = PyStr.strip <$> search best_practices_pattern text ∧
  Dict.get "recommendations" sections
    = PyStr.strip <$> search recommendations_pattern text.
Proof.
  unfold _parse_ai_analysis. cbv zeta. rewrite !get_add_section.
  split_and!;
    repeat match goal with
    | |- context [String.eqb ?a ?b] =>
        let v := eval vm_compute in (String.eqb a b) in
        change (String.eqb a b) with v; cbv iota
    end;
    match goal with |- context [search ?p text] => now destruct (search p text) end.
Qed.

(** X13: a section key is in the parsed mapping exactly when its header
    occurs somewhere in the reply. *)
Theorem section_present_iff_header_occurs (text key header : string) :
  In (key, header) section_headers →
  (is_Some (Dict.get key (_parse_ai_analysis text)) ↔ occurs header text = true).
Proof.
  intros Hin. destruct (get_parse text) as (H1 & H2 & H3 & H4 & H5).
  unfold section_headers in Hin. cbn [In] in Hin.
  destruct Hin as [H|[H|[H|[H|[H|[]]]]]]; injection H as <- <-.
  - rewrite H1, fmap_is_Some. now apply search_section.
  - rewrite H2, fmap_is_Some. now apply search_section.
  - rewrite H3, fmap_is_Some. now apply search_section.
  - rewrite H4, fmap_is_Some. now apply search_section.
  - rewrite H5, fmap_is_Some. now apply search_section.
Qed.

Lemma section_present_iff_header_occurs_witness :
  is_Some (Dict.get "patterns" (_parse_ai_analysis ("see # Patterns" +:+ nl +:+ "x"))) ↔
  occurs "# Patterns" ("see # Patterns" +:+ nl +:+ "x") = true.
Proof.
  apply (section_present_iff_header_occurs _ "patterns" "# Patterns").
  right. left. reflexivity.
Defined.

Lemma rstrip_idempotent s : PyStr.rstrip (PyStr.rstrip s) = PyStr.rstrip s.
Proof.
  induction s as [|a s IH]; [reflexivity|]. cbn [PyStr.rstrip].
  destruct (PyStr.rstrip s) as [|b t] eqn:E.
  - destruct (PyStr.is_space a) eqn:Ea; [reflexivity|]. simpl. now rewrite Ea.
  - cbn [PyStr.rstrip]. cbn [PyStr.rstrip] in IH. rewrite IH. reflexivity.
Qed.

Lemma lstrip_head s :
  PyStr.lstrip s = EmptyString ∨
  ∃ a t, PyStr.lstrip s = String a t ∧ PyStr.is_space a = false.
Proof.
  induction s as [|a s IH]; [now left|]. simpl.
  destruct (PyStr.is_space a) eqn:E; [exact IH|]. right. now exists a, s.
Qed.

Lemma strip_idempotent s : PyStr.strip (PyStr.strip s) = PyStr.strip s.
Proof.
  unfold PyStr.strip. destruct (lstrip_head s) as [->|[a [t [-> Ha]]]]; [reflexivity|].
  assert (∃ u, PyStr.rstrip (String a t) = String a u) as [u Hu].
  { cbn [PyStr.rstrip]. rewrite Ha. destruct (PyStr.rstrip t); eauto. }
  rewrite Hu. cbn [PyStr.lstrip]. rewrite Ha, <- Hu. apply rstrip_idempotent.
Qed.

(** X14: every section body of the parsed mapping is stripped: stripping
    it again changes nothing, so it neither starts nor ends with white
    space. *)
Theorem section_bodies_are_stripped (text key body : string) :
  In (key, body) (_parse_ai_analysis text) → PyStr.strip body = body.
Proof.
  unfold _parse_ai_analysis. cbv zeta.
  destruct (search overview_pattern text), (search patterns_pattern text),
    (search examples_pattern text), (search best_practices_pattern text),
    (search recommendations_pattern text); simpl;
    intros H; repeat (destruct H as [H|H]; [injection H as _ <-; apply strip_idempotent|]);
    destruct H.
Qed.

Lemma section_bodies_are_stripped_witness : PyStr.strip "Hello" = "Hello".
Proof.
  apply (section_bodies_are_stripped ("# Overview" +:+ nl +:+ "Hello  ") "overview").
  left. reflexivity.
Defined.

(** * What the extractors capture *)

Lemma or_else_Some {A} (x y : option A) o :
  or_else x y = Some o → x = Some o ∨ y = Some o.
Proof. destruct x; simpl; intros H; [left|right]; assumption. Qed.

(** A part without groups hands the capture on unchanged. *)
Lemma groupless_keeps r :
  groupless r = true →
  ∀ s c k o, rmatch r s c k = Some o → ∃ s', k s' c = Some o.
Proof.
  induction r as [|p|r1 IH1 r2 IH2|r1 IH1 r2 IH2|r1 IH1|r1 IH1|r1 IH1|r1 IH1|];
    cbn [groupless]; intros Hg s c k o H.
  - eauto.
  - cbn [rmatch] in H. destruct s as [|a s]; [discriminate|].
    destruct (p a); [eauto|discriminate].
  - apply andb_true_iff in Hg. destruct Hg as [Hg1 Hg2]. rewrite rmatch_Seq in H.
    apply (IH1 Hg1) in H. destruct H as [s1 H]. now apply (IH2 Hg2) in H.
  - apply andb_true_iff in Hg. destruct Hg as [Hg1 Hg2]. cbn [rmatch] in H.
    apply or_else_Some in H. destruct H as [H|H]; [now apply (IH1 Hg1) in H|].
    now apply (IH2 Hg2) in H.
  - rewrite rmatch_Star in H. revert H. generalize (S (String.length s)).
    intros n. revert s c. induction n as [|n IHn]; intros s c H; cbn [star_loop] in H; [eauto|].
    apply or_else_Some in H. destruct H as [H|H]; [|eauto].
    apply (IH1 Hg) in H. destruct H as [s1 H].
    destruct (Nat.ltb _ _); [|discriminate]. now apply IHn in H.
  - rewrite rmatch_LazyStar in H. revert H. generalize (S (String.length s)).
    intros n. revert s c. induction n as [|n IHn]; intros s c H; cbn [lazy_loop] in H; [eauto|].
    apply or_else_Some in H. destruct H as [H|H]; [eauto|].
    apply (IH1 Hg) in H. destruct H as [s1 H].
    destruct (Nat.ltb _ _); [|discriminate]. now apply IHn in H.
  - discriminate.
  - rewrite rmatch_Ahead in H.
    destruct (rmatch r1 s c (fun s' c' => Some (s', c'))) as [[s1 c1]|] eqn:E;
      [|discriminate].
    apply (IH1 Hg) in E. destruct E as [s2 [= _ <-]]. eauto.
  - cbn [rmatch] in H. destruct (at_end s); [eauto|discriminate].
Qed.

Lemma all_chars_app P w1 w2 :
  all_chars P (w1 +:+ w2) = all_chars P w1 && all_chars P w2.
Proof.
  induction w1 as [|a w1 IH]; [reflexivity|].
  rewrite append_cons. cbn [all_chars]. now rewrite IH, andb_assoc.
Qed.

Lemma append_assoc (w1 w2 w3 : string) : (w1 +:+ w2) +:+ w3 = w1 +:+ (w2 +:+ w3).
Proof.
  induction w1 as [|a w1 IH]; [reflexivity|]. rewrite !append_cons. now f_equal.
Qed.

(** What a pattern of one character class reads is a prefix of the input
    made of characters of the class. *)
Lemma eats_sound P r :
  eats P r →
  ∀ s c k o, rmatch r s c k = Some o →
  ∃ w s', s = w +:+ s' ∧ all_chars P w = true ∧
          (consumes r = true → w ≠ EmptyString) ∧ k s' c = Some o.
Proof.
  induction r as [|p|r1 IH1 r2 IH2|r1 IH1 r2 IH2|r1 IH1|r1 IH1|r1 IH1|r1 IH1|];
    cbn [eats consumes]; intros He s c k o H; try contradiction.
  - exists EmptyString, s. split_and!; (reflexivity || discriminate || assumption).
  - cbn [rmatch] in H. destruct s as [|a s]; [discriminate|].
    destruct (p a) eqn:Ea; [|discriminate].
    exists (String a EmptyString), s. split_and!; try reflexivity; try assumption.
    + cbn [all_chars]. now rewrite (He a Ea).
    + discriminate.
  - destruct He as [He1 He2]. rewrite rmatch_Seq in H.
    apply (IH1 He1) in H. destruct H as (w1 & s1 & -> & Hw1 & Hn1 & H).
    apply (IH2 He2) in H. destruct H as (w2 & s2 & -> & Hw2 & Hn2 & H).
    exists (w1 +:+ w2), s2. split_and!; try assumption.
    + now rewrite append_assoc.
    + now rewrite all_chars_app, Hw1, Hw2.
    + intros Hc. apply orb_true_iff in Hc. destruct w1; [|discriminate].
      destruct Hc as [Hc|Hc]; [now apply Hn1 in Hc|]. now apply Hn2.
  - destruct He as [He1 He2]. cbn [rmatch] in H.
    apply or_else_Some in H. destruct H as [H|H].
    + apply (IH1 He1) in H. destruct H as (w & s' & -> & Hw & Hn & H).
      exists w, s'. split_and!; try assumption; try reflexivity.
      intros Hc. apply andb_true_iff in Hc. now apply Hn.
    + apply (IH2 He2) in H. destruct H as (w & s' & -> & Hw & Hn & H).
      exists w, s'. split_and!; try assumption; try reflexivity.
      intros Hc. apply andb_true_iff in Hc. now apply Hn.
  - rewrite rmatch_Star in H. revert H. generalize (S (String.length s)).
    intros n. revert s c. induction n as [|n IHn]; intros s c H; cbn [star_loop] in H.
    + exists EmptyString, s. split_and!; (reflexivity || discriminate || assumption).
    + apply or_else_Some in H. destruct H as [H|H].
      * apply (IH1 He) in H. destruct H as (w1 & s1 & -> & Hw1 & _ & H).
        destruct (Nat.ltb _ _); [|discriminate].
        apply IHn in H. destruct H as (w2 & s2 & -> & Hw2 & _ & H).
        exists (w1 +:+ w2), s2. split_and!; try assumption; try discriminate.
        -- now rewrite append_assoc.
        -- now rewrite all_chars_app, Hw1, Hw2.
      * exists EmptyString, s. split_and!; (reflexivity || discriminate || assumption).
  - rewrite rmatch_LazyStar in H. revert H. generalize (S (String.length s)).
    intros n. revert s c. induction n as [|n IHn]; intros s c H; cbn [lazy_loop] in H.
    + exists EmptyString, s. split_and!; (reflexivity || discriminate || assumption).
    + apply or_else_Some in H. destruct H as [H|H].
      * exists EmptyString, s. split_and!; (reflexivity || discriminate || assumption).
      * apply (IH1 He) in H. destruct H as (w1 & s1 & -> & Hw1 & _ & H).
        destruct (Nat.ltb _ _); [|discriminate].
        apply IHn in H. destruct H as (w2 & s2 & -> & Hw2 & _ & H).
        exists (w1 +:+ w2), s2. split_and!; try assumption; try discriminate.
        -- now rewrite append_assoc.
        -- now rewrite all_chars_app, Hw1, Hw2.
Qed.

Lemma length_append (w s : string) :
  String.length (w +:+ s) = String.length w + String.length s.
Proof.
  induction w as [|a w IH]; [reflexivity|]. rewrite append_cons. simpl. now rewrite IH.
Qed.

Lemma substring_prefix (w s : string) : substring 0 (String.length w) (w +:+ s) = w.
Proof.
  induction w as [|a w IH]; [now destruct s|]. rewrite append_cons. simpl. now rewrite IH.
Qed.

Lemma consumed_app (w s : string) : consumed (w +:+ s) s = w.
Proof.
  unfold consumed. rewrite length_append.
  replace (String.length w + String.length s - String.length s)
    with (String.length w) by lia.
  apply substring_prefix.
Qed.

(** A group over one character class captures a text of the class. *)
Lemma group_of_class P g :
  eats P g →
  group_yields (fun w => all_chars P w = true ∧ (consumes g = true → w ≠ EmptyString)) g.
Proof.
  intros He s c k o H. rewrite rmatch_Group in H.
  apply (eats_sound P g He) in H. destruct H as (w & s' & -> & Hw & Hn & H).
  rewrite consumed_app in H. eauto.
Qed.

Lemma group_of_names P g :
  eats P g → consumes g = true → group_yields (name_of P) g.
Proof.
  intros He Hc s c k o H. apply (group_of_class P g He) in H.
  destruct H as (w & s' & [Hw Hn] & H). exists w, s'. split; [|exact H].
  split; [now apply Hn|exact Hw].
Qed.

Lemma is_upper_js_char a : is_upper a = true → js_char a = true.
Proof. destruct a as [[] [] [] [] [] [] [] []]; (reflexivity || discriminate). Qed.

Lemma group_of_capitalized : group_yields capitalized_name (Seq (Chr is_upper) (Star jsword)).
Proof.
  intros s c k o H. rewrite rmatch_Group, rmatch_Seq, rmatch_Chr in H.
  destruct s as [|a s]; [discriminate|].
  destruct (is_upper a) eqn:Ea; [|discriminate].
  assert (eats js_char (Star jsword)) as He by (intros b Hb; exact Hb).
  apply (eats_sound js_char _ He) in H. destruct H as (w & s' & -> & Hw & _ & H).
  rewrite <- append_cons, consumed_app in H.
  exists (String a w), s'. split; [|exact H]. now exists a, w.
Qed.

(** Every match of a pattern with one group sets the capture to a text
    with the property of the group. *)
Lemma captures_sound Q r :
  captures Q r →
  ∀ s c k o, rmatch r s c k = Some o → ∃ w s', Q w ∧ k s' (Some w) = Some o.
Proof.
  induction r as [|p|r1 IH1 r2 IH2|r1 IH1 r2 IH2|r1 IH1|r1 IH1|r1 IH1|r1 IH1|];
    cbn [captures]; intros Hc s c k o H; try contradiction.
  - rewrite rmatch_Seq in H. destruct Hc as [[Hg Hc]|[Hc Hg]].
    + apply (groupless_keeps r1 Hg) in H. destruct H as [s1 H]. now apply (IH2 Hc) in H.
    + apply (IH1 Hc) in H. destruct H as (w & s1 & Hw & H).
      apply (groupless_keeps r2 Hg) in H. destruct H as [s2 H]. eauto.
  - now apply Hc in H.
Qed.

Lemma match_here_captures Q r b s rest c :
  captures Q r → match_here r b s = Some (rest, c) → ∃ w, c = Some w ∧ Q w.
Proof.
  intros Hc H. unfold match_here in H. apply (captures_sound Q r Hc) in H.
  destruct H as (w & s' & Hw & H). destruct (_ && _); [discriminate|].
  injection H as _ <-. eauto.
Qed.

Lemma findall_from_unfold r s skip :
  findall_from r s skip =
    let continue (n : nat) : list string :=
      match s with
      | String _ s' => findall_from r s' n
      | EmptyString => []
      end in
    match skip with
    | S n => continue n
    | 0 =>
        match match_here r false s with
        | None => continue 0
        | Some (rest, c) =>
            match String.length s - String.length rest with
            | S m => default EmptyString c :: continue m
            | 0 =>
                default EmptyString c ::
                match match_here r true s with
                | Some (rest2, c2) =>
                    default EmptyString c2 ::
                    continue (String.length s - String.length rest2 - 1)
                | None => continue 0
                end
            end
        end
    end.
Proof. destruct s; reflexivity. Qed.

(** Every element of [findall] is the capture of a match somewhere in the
    text. *)
Lemma findall_from_matches r s skip x :
  In x (findall_from r s skip) →
  ∃ b s' rest c, match_here r b s' = Some (rest, c) ∧ x = default EmptyString c.
Proof.
  revert skip. induction s as [|a s IH]; intros skip; rewrite findall_from_unfold; cbv zeta.
  - destruct skip as [|n]; [|intros []].
    destruct (match_here r false EmptyString) as [[rest c]|] eqn:E; [|intros []].
    destruct (String.length EmptyString - String.length rest) as [|m].
    + intros [<-|H]; [now exists false, EmptyString, rest, c|].
      destruct (match_here r true EmptyString) as [[rest2 c2]|] eqn:E2; [|destruct H].
      destruct H as [<-|[]]. now exists true, EmptyString, rest2, c2.
    + intros [<-|[]]. now exists false, EmptyString, rest, c.
  - destruct skip as [|n]; [|apply IH].
    destruct (match_here r false (String a s)) as [[rest c]|] eqn:E; [|apply IH].
    destruct (String.length (String a s) - String.length rest) as [|m].
    + intros [<-|H]; [now exists false, (String a s), rest, c|].
      destruct (match_here r true (String a s)) as [[rest2 c2]|] eqn:E2; [|now apply IH in H].
      destruct H as [<-|H]; [now exists true, (String a s), rest2, c2|]. now apply IH in H.
    + intros [<-|H]; [now exists false, (String a s), rest, c|]. now apply IH in H.
Qed.

Lemma search_matches r s x :
  search r s = Some x →
  ∃ s' rest c, match_here r false s' = Some (rest, c) ∧ x = default EmptyString c.
Proof.
  induction s as [|a s IH]; cbn [search].
  - destruct (match_here r false EmptyString) as [[rest c]|] eqn:E; [|discriminate].
    intros [= <-]. now exists EmptyString, rest, c.
  - destruct (match_here r false (String a s)) as [[rest c]|] eqn:E; [|exact IH].
    intros [= <-]. now exists (String a s), rest, c.
Qed.

(** The names an extractor returns have the property of the group of the
    pattern that found them. *)
Lemma extract_captures Q patterns files name :
  Forall (captures Q) patterns → name ∈ extract patterns files → Q name.
Proof.
  intros Hall H. apply elem_of_extract in H. destruct H as (file & p & _ & Hp & H).
  rewrite Forall_forall in Hall. apply list_elem_of_In in Hp. specialize (Hall p Hp).
  apply findall_from_matches in H. destruct H as (b & s' & rest & c & Hm & ->).
  apply (match_here_captures Q p b s' rest c Hall) in Hm.
  destruct Hm as [w [-> Hw]]. exact Hw.
Qed.

Lemma group_yields_weaken (Q Q' : string → Prop) g :
  (∀ w, Q w → Q' w) → group_yields Q g → group_yields Q' g.
Proof.
  intros HQ Hg s c k o H. apply Hg in H. destruct H as (w & s' & Hw & H). eauto.
Qed.

(** Walks down the sequence of a pattern to its group. *)
Ltac to_group :=
  lazymatch goal with
  | |- group_yields _ _ => idtac
  | |- (groupless _ = true ∧ _) ∨ _ =>
      first [ left; split; [reflexivity | to_group]
            | right; split; [to_group | reflexivity] ]
  | |- captures _ _ => cbn [captures]; to_group
  end.

Ltac each_pattern tac :=
  repeat lazymatch goal with
         | |- Forall _ [] => constructor
         | |- Forall _ (_ :: _) => constructor; [tac|]
         end.

Ltac class_group :=
  apply group_of_names; [cbn [eats Plus]; repeat split; intros ? H; exact H | reflexivity].

(** X15: the Python extractors return identifiers: every class or
    function name is a non-empty text of letters, digits and [_], every
    import a non-empty text of letters, digits, [_] and [.]. *)
Theorem python_extractors_return_identifiers (files : list SampledFile) (name : string) :
  (name ∈ _extract_python_imports files → name_of dotted_char name) ∧
  (name ∈ _extract_python_classes files → name_of word_char name) ∧
  (name ∈ _extract_python_functions files → name_of word_char name).
Proof.
  split_and!; apply extract_captures;
    unfold python_import_patterns, python_class_pattern, python_function_pattern;
    each_pattern ltac:(cbn [seqs]; to_group; unfold dotted, word; class_group).
Qed.

(** X16: the JS/TS extractors: an import specifier holds no quote
    character; an export name is a non-empty text of letters, digits, [_]
    and [$]; a component name is such a text that starts with an
    upper-case letter. *)
Theorem js_extractors_return_names (files : list SampledFile) (name : string) :
  (name ∈ _extract_js_imports files → all_chars unquoted_char name = true) ∧
  (name ∈ _extract_js_exports files → name_of js_char name) ∧
  (name ∈ _extract_react_components files → capitalized_name name).
Proof.
  split_and!.
  - apply (extract_captures (fun w => all_chars unquoted_char w = true)).
    unfold js_import_pattern.
    each_pattern ltac:(
      cbn [seqs]; to_group;
      refine (group_yields_weaken _ _ _ _ (group_of_class unquoted_char _ _));
      [ intros w [Hw _]; exact Hw
      | unfold not_quote; cbn [eats]; intros a H; exact H ]).
  - apply extract_captures. unfold js_export_patterns.
    each_pattern ltac:(cbn [seqs]; to_group; unfold jsword; class_group).
  - apply extract_captures. unfold component_patterns.
    each_pattern ltac:(cbn [seqs]; unfold capitalized; to_group;
                       apply group_of_capitalized).
Qed.

Lemma go_quoted_captures : captures (name_of undq_char) go_quoted.
Proof. unfold go_quoted. cbn [seqs]. to_group. unfold not_chr. class_group. Qed.

(** X17: the Java/Kotlin and Go extractors: a Java import is a non-empty
    text of letters, digits, [_] and [.]; a Java class name and a Go
    function name are non-empty texts of letters, digits and [_]; a Go
    import path is not empty and holds no double quote. *)
Theorem java_and_go_extractors_return_names (files : list SampledFile) (name : string) :
  (name ∈ _extract_java_imports files → name_of dotted_char name) ∧
  (name ∈ _extract_java_classes files → name_of word_char name) ∧
  (name ∈ _extract_go_functions files → name_of word_char name) ∧
  (name ∈ _extract_go_imports files → name_of undq_char name).
Proof.
  split_and!.
  - apply extract_captures. unfold java_import_pattern.
    each_pattern ltac:(cbn [seqs]; to_group; unfold dotted; class_group).
  - apply extract_captures. unfold java_class_pattern.
    each_pattern ltac:(cbn [seqs]; to_group; unfold word; class_group).
  - apply extract_captures. unfold go_function_pattern.
    each_pattern ltac:(cbn [seqs]; to_group; unfold word; class_group).
  - unfold _extract_go_imports. rewrite elem_of_list_to_set, list_elem_of_In, in_flat_map.
    intros [file [_ H]]. unfold go_file_imports in H. apply in_app_or in H.
    destruct H as [H|H].
    + apply in_flat_map in H. destruct H as [block [_ H]].
      apply in_flat_map in H. destruct H as [line [_ H]].
      destruct (search go_quoted line) as [x|] eqn:E; [|destruct H].
      destruct H as [<-|[]]. apply search_matches in E.
      destruct E as (s' & rest & c & Hm & ->).
      apply (match_here_captures _ _ _ _ _ _ go_quoted_captures) in Hm.
      destruct Hm as [w [-> Hw]]. exact Hw.
    + apply findall_from_matches in H. destruct H as (b & s' & rest & c & Hm & ->).
      assert (captures (name_of undq_char) go_single_pattern) as Hc.
      { unfold go_single_pattern. cbn [seqs].
        cbn [captures]. left. split; [reflexivity|].
        cbn [captures]. left. split; [reflexivity|]. apply go_quoted_captures. }
      apply (match_here_captures _ _ _ _ _ _ Hc) in Hm.
      destruct Hm as [w [-> Hw]]. exact Hw.
Qed.

(** * Case-insensitive classification *)

Lemma is_Some_or_else {A} (x y : option A) :
  is_Some (or_else x y) ↔ is_Some x ∨ is_Some y.
Proof.
  destruct x as [a|]; simpl.
  - split; [left|]; eauto.
  - split; [now right|]. intros [[? [=]]|H]; exact H.
Qed.

Lemma length_lower s : String.length (PyStr.lower s) = String.length s.
Proof. induction s as [|a s IH]; simpl; [reflexivity|now rewrite IH]. Qed.

Lemma lower_char_newline a :
  Ascii.eqb (PyStr.lower_char a) "010" = Ascii.eqb a "010".
Proof. destruct a as [[] [] [] [] [] [] [] []]; reflexivity. Qed.

Lemma at_end_lower s : at_end (PyStr.lower s) = at_end s.
Proof.
  destruct s as [|a [|b s]]; try reflexivity. simpl. apply lower_char_newline.
Qed.

(** A caseless pattern matches a text exactly when it matches the text in
    lower case. *)
Lemma rmatch_lower r :
  caseless r →
  ∀ s c c' k k',
    (∀ s1 c1 c1', is_Some (k s1 c1) ↔ is_Some (k' (PyStr.lower s1) c1')) →
    (is_Some (rmatch r s c k) ↔ is_Some (rmatch r (PyStr.lower s) c' k')).
Proof.
  induction r as [|p|r1 IH1 r2 IH2|r1 IH1 r2 IH2|r1 IH1|r1 IH1|r1 IH1|r1 IH1|];
    cbn [caseless]; intros Hc s c c' k k' Hk.
  - apply Hk.
  - rewrite !rmatch_Chr. destruct s as [|a s]; [reflexivity|].
    cbn [PyStr.lower]. rewrite Hc. destruct (p a); [apply Hk|reflexivity].
  - destruct Hc as [Hc1 Hc2]. rewrite !rmatch_Seq. apply (IH1 Hc1).
    intros s1 c1 c1'. now apply (IH2 Hc2).
  - destruct Hc as [Hc1 Hc2]. cbn [rmatch]. rewrite !is_Some_or_else.
    rewrite (IH1 Hc1 s c c' k k' Hk), (IH2 Hc2 s c c' k k' Hk). reflexivity.
  - rewrite !rmatch_Star, length_lower. generalize (S (String.length s)).
    intros n. revert s c c'. induction n as [|n IHn]; intros s c c'; cbn [star_loop].
    + apply Hk.
    + rewrite !is_Some_or_else, (Hk s c c').
      rewrite (IH1 Hc s c c' _
                 (fun s' c' =>
                    if Nat.ltb (String.length s') (String.length (PyStr.lower s))
                    then star_loop r1 k' n s' c' else None)); [reflexivity|].
      intros s1 c1 c1'. rewrite !length_lower.
      destruct (Nat.ltb _ _); [apply IHn|reflexivity].
  - rewrite !rmatch_LazyStar, length_lower. generalize (S (String.length s)).
    intros n. revert s c c'. induction n as [|n IHn]; intros s c c'; cbn [lazy_loop].
    + apply Hk.
    + rewrite !is_Some_or_else, (Hk s c c').
      rewrite (IH1 Hc s c c' _
                 (fun s' c' =>
                    if Nat.ltb (String.length s') (String.length (PyStr.lower s))
                    then lazy_loop r1 k' n s' c' else None)); [reflexivity|].
      intros s1 c1 c1'. rewrite !length_lower.
      destruct (Nat.ltb _ _); [apply IHn|reflexivity].
  - rewrite !rmatch_Group. apply (IH1 Hc). intros s1 c1 c1'. apply Hk.
  - rewrite !rmatch_Ahead.
    assert (is_Some (rmatch r1 s c (fun s' c' => Some (s', c'))) ↔
            is_Some (rmatch r1 (PyStr.lower s) c' (fun s' c' => Some (s', c')))) as H.
    { apply (IH1 Hc). intros s1 c1 c1'. split; eauto. }
    destruct (rmatch r1 s c _) as [[s1 c1]|],
             (rmatch r1 (PyStr.lower s) c' _) as [[s1' c1']|].
    + apply Hk.
    + exfalso. apply (@is_Some_None outcome). apply (proj1 H); eauto.
    + exfalso. apply (@is_Some_None outcome). apply (proj2 H); eauto.
    + reflexivity.
  - cbn [rmatch]. rewrite at_end_lower. destruct (at_end s); [apply Hk|reflexivity].
Qed.

Lemma search_lower r s :
  caseless r → (is_Some (search r s) ↔ is_Some (search r (PyStr.lower s))).
Proof.
  intros Hc. induction s as [|a s IH].
  - cbn [search PyStr.lower].
    destruct (match_here r false EmptyString) as [[? ?]|]; [|reflexivity].
    split; eauto.
  - cbn [search PyStr.lower].
    assert (is_Some (match_here r false (String a s)) ↔
            is_Some (match_here r false (String (PyStr.lower_char a) (PyStr.lower s)))) as H.
    { unfold match_here. apply (rmatch_lower r Hc (String a s)).
      intros s1 c1 c1'. cbn [andb]. split; eauto. }
    destruct (match_here r false (String a s)) as [[? ?]|],
             (match_here r false (String _ (PyStr.lower s))) as [[? ?]|].
    + split; eauto.
    + exfalso. apply (@is_Some_None outcome). apply (proj1 H); eauto.
    + exfalso. apply (@is_Some_None outcome). apply (proj2 H); eauto.
    + exact IH.
Qed.

Lemma first_match_lower patterns path :
  Forall caseless patterns →
  first_match patterns (PyStr.lower path) = first_match patterns path.
Proof.
  induction patterns as [|p ps IH]; intros Hall; [reflexivity|].
  apply Forall_cons in Hall. destruct Hall as [Hp Hps]. cbn [first_match].
  pose proof (search_lower p path Hp) as H.
  destruct (search p path), (search p (PyStr.lower path)); try reflexivity.
  - exfalso. apply (@is_Some_None string). apply (proj1 H); eauto.
  - exfalso. apply (@is_Some_None string). apply (proj2 H); eauto.
  - now apply IH.
Qed.

Lemma caseless_ilit s : caseless (ilit s).
Proof.
  unfold ilit. induction s as [|a s IH]; [exact I|].
  assert (caseless (chr true a)) as Ha.
  { intros b. cbn beta iota. now rewrite lower_char_idempotent. }
  destruct s as [|b s]; [exact Ha|]. split; [exact Ha|exact IH].
Qed.

Lemma caseless_dot : caseless dot.
Proof. intros a. unfold is_char. now rewrite !(Ascii.eqb_sym "010"), lower_char_newline. Qed.

Ltac solve_caseless :=
  repeat lazymatch goal with
         | |- caseless (ilit _) => apply caseless_ilit
         | |- caseless dot => exact caseless_dot
         | |- caseless _ => cbn [caseless]
         | |- _ ∧ _ => split
         | |- True => exact I
         end.

Lemma categories_caseless category patterns :
  In (category, patterns) categories → Forall caseless patterns.
Proof.
  unfold categories. cbn [In].
  intros [H|[H|[H|[H|[]]]]]; injection H as _ <-;
    unfold backend_patterns, frontend_patterns, cli_patterns, config_patterns,
      ends_with, iopt, dot_plus, Opt, Plus;
    cbn [alts seqs]; repeat (constructor; [solve_caseless|]); constructor.
Qed.

(** X18: the classifier is blind to letter case: two paths that differ in
    the case of their ASCII letters only fall in the same categories. *)
Theorem entry_points_ignore_letter_case
    (category : string) (patterns : list regex) (path path' : string) :
  In (category, patterns) categories →
  PyStr.lower path = PyStr.lower path' →
  first_match patterns path = first_match patterns path'.
Proof.
  intros Hin Hlow. pose proof (categories_caseless _ _ Hin) as Hall.
  rewrite <- (first_match_lower patterns path Hall), Hlow.
  now apply first_match_lower.
Qed.

Lemma entry_points_ignore_letter_case_witness :
  first_match frontend_patterns "src/App.JSX" = first_match frontend_patterns "src/app.jsx".
Proof.
  apply (entry_points_ignore_letter_case "frontend" frontend_patterns).
  - right. left. reflexivity.
  - reflexivity.
Defined.

(** * The dependencies shown in the prompt *)

Lemma insert_by_count_perm x l : insert_by_count x l ≡ₚ x :: l.
Proof.
  induction l as [|y l IH]; [reflexivity|]. simpl.
  destruct (Nat.leb (snd y) (snd x)); [reflexivity|].
  rewrite IH. apply perm_swap.
Qed.

Lemma sorted_by_count_perm items : sorted_by_count items ≡ₚ items.
Proof.
  induction items as [|x l IH]; [reflexivity|]. simpl.
  now rewrite insert_by_count_perm, IH.
Qed.

Lemma insert_by_count_sorted x l :
  StronglySorted (fun a b => (snd b <= snd a)%nat) l →
  StronglySorted (fun a b => (snd b <= snd a)%nat) (insert_by_count x l).
Proof.
  induction l as [|y l IH]; intros Hs; simpl.
  - repeat constructor.
  - inversion Hs as [|? ? Hl Hy]; subst.
    destruct (Nat.leb (snd y) (snd x)) eqn:E.
    + apply Nat.leb_le in E. constructor; [exact Hs|].
      constructor; [exact E|]. rewrite List.Forall_forall in *.
      intros z Hz. specialize (Hy z Hz). lia.
    + apply Nat.leb_gt in E. constructor; [now apply IH|].
      rewrite List.Forall_forall in *. intros z Hz.
      apply (Permutation_in _ (insert_by_count_perm x l)) in Hz.
      destruct Hz as [<-|Hz]; [lia|now apply Hy].
Qed.

Lemma sorted_by_count_sorted items :
  StronglySorted (fun a b => (snd b <= snd a)%nat) (sorted_by_count items).
Proof.
  induction items as [|x l IH]; [constructor|]. simpl. now apply insert_by_count_sorted.
Qed.

Lemma strongly_sorted_app {A} (R : A → A → Prop) l1 l2 :
  StronglySorted R (l1 ++ l2) →
  StronglySorted R l1 ∧ ∀ x y, In x l1 → In y l2 → R x y.
Proof.
  induction l1 as [|a l1 IH]; simpl; intros Hs.
  - split; [constructor|]. intros x y [].
  - inversion Hs as [|? ? Hl Ha]; subst. destruct (IH Hl) as [Hs1 Hx].
    rewrite List.Forall_forall in Ha. split.
    + constructor; [exact Hs1|]. rewrite List.Forall_forall. intros z Hz.
      apply Ha, in_or_app. now left.
    + intros x y [<-|Hin] Hy; [|now apply Hx]. apply Ha, in_or_app. now right.
Qed.

(** X19: the prompt lists, for an ecosystem, the 15 most counted
    dependencies of its table, or all when there are fewer: the listed
    entries are entries of the table, in the order of descending count,
    and no entry left out has a higher count than a listed one. *)
Theorem prompt_shows_most_counted_dependencies (table : gmap string nat) :
  let shown := shown_dependencies table in
  length shown = Nat.min 15 (size table) ∧
  (∀ dep n, In (dep, n) shown → table !! dep = Some n) ∧
  StronglySorted (fun a b => (snd b <= snd a)%nat) shown ∧
  (∀ dep n dep' n',
     In (dep, n) shown → table !! dep' = Some n' → ¬ In (dep', n') shown →
     (n' <= n)%nat).
Proof.
  intros shown. unfold shown, shown_dependencies.
  set (items := map_to_list table).
  pose proof (sorted_by_count_perm items) as Hperm.
  pose proof (sorted_by_count_sorted items) as Hsorted.
  rewrite <- (firstn_skipn 15 (sorted_by_count items)) in Hsorted.
  apply strongly_sorted_app in Hsorted. destruct Hsorted as [Hs Hle].
  assert (∀ dep n, In (dep, n) (sorted_by_count items) ↔ table !! dep = Some n) as Hin.
  { intros dep n. rewrite <- elem_of_map_to_list, <- list_elem_of_In. fold items.
    now rewrite Hperm. }
  split_and!.
  - rewrite length_firstn, (Permutation_length Hperm). unfold items.
    now rewrite length_map_to_list.
  - intros dep n H. apply Hin. rewrite <- (firstn_skipn 15 (sorted_by_count items)).
    apply in_or_app. now left.
  - exact Hs.
  - intros dep n dep' n' Hshown Htable Hout.
    apply Hin in Htable. rewrite <- (firstn_skipn 15 (sorted_by_count items)) in Htable.
    apply in_app_or in Htable. destruct Htable as [H|H]; [contradiction|].
    exact (Hle _ _ Hshown H).
Qed.

(** * Order of the records and of the entry points *)

Lemma keys_scan_files_fresh es a :
  List.NoDup (map fst es) →
  (∀ p, In p (map fst es) → ¬ In p (Dict.keys (file_data a))) →
  Dict.keys (file_data (scan_files a es)) =
    Dict.keys (file_data a) ++ map fst (List.filter (fun e => accepted (snd e)) es).
Proof.
  revert a. induction es as [|[p f] es IH]; intros a Hnd Hfresh.
  - simpl. now rewrite app_nil_r.
  - rewrite scan_files_cons. inversion Hnd as [|? ? Hp Hnd']; subst.
    cbn [List.filter snd]. rewrite IH; [|exact Hnd'|].
    + rewrite file_data_scan_file. destruct (accepted f); [|reflexivity].
      rewrite keys_set_absent by (apply Hfresh; now left).
      now rewrite <- app_assoc.
    + intros q Hq Hin. rewrite file_data_scan_file in Hin.
      destruct (accepted f).
      * apply in_keys_set in Hin. destruct Hin as [->|Hin]; [tauto|].
        apply (Hfresh q); simpl; tauto.
      * apply (Hfresh q); simpl; tauto.
Qed.

(** X20: when the paths of the walk are distinct, the keys of [file_data]
    are the paths of the accepted files in the order of the walk. *)
Theorem records_follow_the_walk (repo : tree) :
  List.NoDup (map fst (walk (excluded_dirs init) EmptyString repo)) →
  Dict.keys (file_data (scan_repo init repo)) =
    map fst
      (List.filter (fun e => accepted (snd e))
         (walk (excluded_dirs init) EmptyString repo)).
Proof.
  intros Hnd. unfold scan_repo. rewrite keys_scan_files_fresh; [reflexivity|exact Hnd|].
  intros p _ [].
Qed.

Lemma records_follow_the_walk_witness :
  Dict.keys (file_data (scan_repo init binary_file_repo)) =
    map fst
      (List.filter (fun e => accepted (snd e))
         (walk (excluded_dirs init) EmptyString binary_file_repo)).
Proof.
  apply (records_follow_the_walk binary_file_repo).
  repeat constructor; simpl; intuition discriminate.
Defined.

Lemma nodup_file_data_scan_files es a :
  List.NoDup (Dict.keys (file_data a)) →
  List.NoDup (Dict.keys (file_data (scan_files a es))).
Proof.
  revert a. induction es as [|[p f] es IH]; intros a H; [exact H|].
  rewrite scan_files_cons. apply IH. rewrite file_data_scan_file.
  destruct (accepted f); [now apply nodup_keys_set|exact H].
Qed.

(** X21: in the EntryPointMap of a scanned repository every listed path
    is a recorded path, and no category lists a path twice. *)
Theorem entry_points_list_recorded_paths_once
    (repo : tree) (category : string) (paths : list string) :
  In (category, paths) (_identify_entry_points (scan_repo init repo)) →
  List.NoDup paths ∧
  ∀ p, In p paths → In p (Dict.keys (file_data (scan_repo init repo))).
Proof.
  unfold _identify_entry_points. rewrite classify_fold. cbn [app].
  set (recorded := Dict.keys (file_data (scan_repo init repo))).
  assert (List.NoDup recorded) as Hnd.
  { unfold recorded, scan_repo. apply nodup_file_data_scan_files. constructor. }
  unfold drop_empty. intros H. apply filter_In in H. destruct H as [H _].
  cbn [In] in H.
  destruct H as [H|[H|[H|[H|[]]]]]; injection H as _ <-;
    (split; [now apply List.NoDup_filter | intros p Hp; now apply filter_In in Hp]).
Qed.

Lemma entry_points_list_recorded_paths_once_witness :
  List.NoDup ["app.js"] ∧
  ∀ p, In p ["app.js"] → In p (Dict.keys (file_data (scan_repo init react_repo))).
Proof.
  apply (entry_points_list_recorded_paths_once react_repo "backend").
  vm_compute. left. reflexivity.
Defined.

(** * Frame of the dependency tables *)

Lemma python_tally fp d :
  python (fold_left tally_ext fp d) = fold_left tally_py (py_files fp) (python d).
Proof.
  revert d. induction fp as [|[ext files] fp IH]; intros d; [reflexivity|].
  cbn [fold_left py_files flat_map fst snd]. fold (py_files fp).
  rewrite IH, fold_left_app. unfold tally_ext.
  destruct (is_js_family ext); [reflexivity|].
  now destruct (String.eqb ext "py").
Qed.

Lemma get_python d :
  Dict.get "python" (drop_empty_tables d) =
    if bool_decide (python d = ∅) then None else Some (python d).
Proof.
  unfold drop_empty_tables. cbn [List.filter snd].
  destruct (bool_decide (javascript d = ∅)), (bool_decide (python d = ∅)),
    (bool_decide (java d = ∅)), (bool_decide (go d = ∅)); reflexivity.
Qed.

(** X22: the JavaScript table depends on package.json and on the sampled
    JS/TS files alone, the Python table on requirements.txt and on the
    sampled Python files alone: the other root files, the other samples
    and the other ecosystem leave each unchanged. *)
Theorem dependency_tables_are_independent
    (root root' : string → read_outcome) (pj pj' : package_json) (a a' : analyzer) :
  (js_files (file_patterns a) = js_files (file_patterns a') →
   Dict.get "javascript" (_identify_dependencies root pj a) =
   Dict.get "javascript" (_identify_dependencies root' pj a')) ∧
  (root "requirements.txt" = root' "requirements.txt" →
   py_files (file_patterns a) = py_files (file_patterns a') →
   Dict.get "python" (_identify_dependencies root pj a) =
   Dict.get "python" (_identify_dependencies root' pj' a')).
Proof.
  unfold _identify_dependencies. split.
  - intros Hjs. rewrite !get_javascript, !javascript_tally, Hjs. reflexivity.
  - intros Hreq Hpy. rewrite !get_python, !python_tally, Hpy.
    cbn [python]. now rewrite !python_seed, Hreq.
Qed.

(** * File types *)

Lemma last_dot_suffix_no_dot s : has_dot s = false → last_dot_suffix s = None.
Proof.
  induction s as [|a s IH]; [reflexivity|]. simpl. intros H.
  apply orb_false_iff in H. destruct H as [Ha Hs]. now rewrite (IH Hs), Ha.
Qed.

Lemma last_dot_suffix_app base ext :
  has_dot ext = false →
  last_dot_suffix (base +:+ String "." ext) = Some (String "." ext).
Proof.
  intros He. induction base as [|a base IH].
  - change (last_dot_suffix (String "." ext) = Some (String "." ext)).
    cbn [last_dot_suffix]. now rewrite (last_dot_suffix_no_dot ext He).
  - rewrite append_cons. cbn [last_dot_suffix]. now rewrite IH.
Qed.

Lemma skip_dots_app base rest :
  skip_dots base ≠ EmptyString → skip_dots (base +:+ rest) = skip_dots base +:+ rest.
Proof.
  induction base as [|a base IH]; [intros []; reflexivity|].
  rewrite append_cons. cbn [skip_dots]. destruct (Ascii.eqb a "."); [exact IH|].
  intros _. now rewrite append_cons.
Qed.

(** X23: the type of a file named [base.ext], where [base] holds a
    character other than a dot and [ext] no dot, is [ext] in lower case,
    the empty text for a name that ends in a dot; a name without a dot
    after its leading dots, such as a dot-file, has the type
    [no_extension]. *)
Theorem file_type_is_the_lowered_suffix (base ext name : string) :
  (skip_dots base ≠ EmptyString → has_dot ext = false →
   file_type (base +:+ String "." ext) = PyStr.lower ext) ∧
  (has_dot (skip_dots name) = false → file_type name = "no_extension").
Proof.
  unfold file_type, splitext_ext. split.
  - intros Hbase Hext. rewrite skip_dots_app by assumption.
    now rewrite last_dot_suffix_app.
  - intros H. now rewrite (last_dot_suffix_no_dot _ H).
Qed.

(** * The Python manifest files *)










